(** * The interactive editing engine of the schematic editor (src/app.py)

    A shallow embedding of [DiagramEditor]: the pointer-event handlers
    ([mousePressEvent], [mouseMoveEvent], [mouseReleaseEvent]), the hit
    tester [element_at_position], the wire router [_get_wire] and the
    selection and deletion actions, with the properties the specification
    states about them. *)

From stdpp Require Import gmap list strings pretty.
From Stdlib Require Import ZArith Lia Ascii.

Open Scope Z_scope.

(** ** Python errors

    A handler either runs to completion or raises.  Only the exceptions the
    modelled code can raise are listed. *)

Inductive exn :=
  | ZeroDivisionError   (* [d.x() / gs] with [gs = 0] *)
  | TypeError           (* arithmetic on an anchor that is still [None] *)
  | AttributeError      (* [.position] of [None] *)
  | FacadeError.        (* raised inside the diagram facade *)

Inductive result (A : Type) :=
  | Ok (a : A)
  | Raise (x : exn).
Arguments Ok {A} a.
Arguments Raise {A} x.

Definition bind {A B} (m : result A) (k : A -> result B) : result B :=
  match m with
  | Ok a => k a
  | Raise x => Raise x
  end.

Notation "'let!' x ':=' m 'in' k" := (bind m (fun x => k))
  (at level 10, x name, m at level 100, k at level 200).

Definition from_option {A} (x : exn) (o : option A) : result A :=
  match o with
  | Some a => Ok a
  | None => Raise x
  end.

(** ** Qt value types

    [QPoint] has integer coordinates.  They are taken unbounded: the
    coordinates of pointer events and of grid points stay far inside the
    range of a C [int]. *)

Module QPoint.
Record t := mk { x : Z; y : Z }.

Definition zero : t := mk 0 0.                    (* QPoint() *)
Definition add (a b : t) : t := mk (x a + x b) (y a + y b).
Definition sub (a b : t) : t := mk (x a - x b) (y a - y b).
Definition scale (a : t) (k : Z) : t := mk (x a * k) (y a * k).

Definition eqb (a b : t) : bool := (x a =? x b) && (y a =? y b).
End QPoint.

Abbreviation QPoint := QPoint.t.
Notation "a +p b" := (QPoint.add a b) (at level 50, left associativity).
Notation "a -p b" := (QPoint.sub a b) (at level 50, left associativity).

(** [round(a / b)] of Python 3 on integers [a], [b]: true division followed
    by rounding to the nearest integer, ties to the even one.  For
    coordinates in the range of a C [int] the quotient's double is exact
    enough that this is the rounding of the rational [a / b]. *)

Definition round_half_even (a b : Z) : Z :=
  let q := a / b in
  let r := Z.abs (a mod b) in
  match (2 * r ?= Z.abs b) with
  | Lt => q
  | Gt => q + 1
  | Eq => if Z.even q then q else q + 1
  end.

Definition py_round_div (a b : Z) : result Z :=
  if b =? 0 then Raise ZeroDivisionError else Ok (round_half_even a b).

(** [QPoint(round(d.x() / gs), round(d.y() / gs))] *)
Definition to_grid (d : QPoint) (gs : Z) : result QPoint :=
  let! px := py_round_div (QPoint.x d) gs in
  let! py := py_round_div (QPoint.y d) gs in
  Ok (QPoint.mk px py).

(** [QRect] keeps its two corners, as Qt does: [QRect(x, y, w, h)] has
    [x2 = x + w - 1] and [y2 = y + h - 1]. *)

Module QRect.
Record t := mk { x1 : Z; y1 : Z; x2 : Z; y2 : Z }.

Definition of_xywh (x y w h : Z) : t := mk x y (x + w - 1) (y + h - 1).

Definition left (r : t) := x1 r.
Definition top (r : t) := y1 r.
Definition right (r : t) := x2 r.
Definition bottom (r : t) := y2 r.
Definition width (r : t) := x2 r - x1 r + 1.
Definition height (r : t) := y2 r - y1 r + 1.

Definition translated (r : t) (dx dy : Z) : t :=
    mk (x1 r + dx) (y1 r + dy) (x2 r + dx) (y2 r + dy).

(** [QRect::contains(const QPoint &, proper = false)] *)
Definition contains (r : t) (p : QPoint) : bool :=
    let '(l, rr) := if x2 r <? x1 r - 1 then (x2 r, x1 r) else (x1 r, x2 r) in
    let '(tp, b) := if y2 r <? y1 r - 1 then (y2 r, y1 r) else (y1 r, y2 r) in
    negb ((QPoint.x p <? l) || (rr <? QPoint.x p)) &&
    negb ((QPoint.y p <? tp) || (b <? QPoint.y p)).
End QRect.

Abbreviation QRect := QRect.t.

(** ** Facing and rotation

    The four facings are the integers 0 to 3 in the source
    ([facing * -90] is an angle, [range(4)] enumerates the directions). *)

Inductive Facing := EAST | NORTH | WEST | SOUTH.

Definition facing_index (f : Facing) : Z :=
  match f with EAST => 0 | NORTH => 1 | WEST => 2 | SOUTH => 3 end.

(** Modelled from the spec: [diagram.rotate] is imported by src/app.py but
    diagram.py is not under src/.  The spec's Grid Mapper turns element
    geometry by [facing * -90] degrees about the origin; on grid vectors, in
    Qt's coordinates (y grows downwards), that is the map below.  The paint
    code uses [rotate(1, 0, dir)] as the unit step in direction [dir]. *)
Definition rotate (x y : Z) (f : Facing) : Z * Z :=
  match f with
  | EAST => (x, y)
  | NORTH => (y, - x)
  | WEST => (- x, - y)
  | SOUTH => (- y, x)
  end.

(** The transform built by
    [t = QTransform(); t.translate(dx, dy); t.rotate(facing * -90)]:
    a point is first turned about the origin, then moved by [(dx, dy)].  Qt
    sets the sine and cosine of the quarter turns exactly. *)

Module QTransform.
Record t := mk { dx : Z; dy : Z; turn : Facing }.

Definition map (m : t) (x y : Z) : Z * Z :=
    let '(rx, ry) := rotate x y (turn m) in (rx + dx m, ry + dy m).

Definition min4 (a b c d : Z) := Z.min (Z.min a b) (Z.min c d).
Definition max4 (a b c d : Z) := Z.max (Z.max a b) (Z.max c d).

(** [QTransform::mapRect(const QRect &)].  Without a turn the matrix is a
    translation; the half turn is a scaling by [-1]; the quarter turns take
    the general path, the bounding box of the four mapped corners. *)
Definition mapRect (m : t) (r : QRect) : QRect :=
    match turn m with
    | EAST => QRect.translated r (dx m) (dy m)
    | WEST =>
        let x := - QRect.x1 r + dx m in
        let y := - QRect.y1 r + dy m in
        let w := - QRect.width r in
        let h := - QRect.height r in
        let '(w, x) := if w <? 0 then (- w, x - - w) else (w, x) in
        let '(h, y) := if h <? 0 then (- h, y - - h) else (h, y) in
        QRect.of_xywh x y w h
    | _ =>
        let '(ax, ay) := map m (QRect.left r) (QRect.top r) in
        let '(bx, by_) := map m (QRect.right r + 1) (QRect.top r) in
        let '(cx, cy) := map m (QRect.right r + 1) (QRect.bottom r + 1) in
        let '(ex, ey) := map m (QRect.left r) (QRect.bottom r + 1) in
        let xmin := min4 ax bx cx ex in
        let ymin := min4 ay by_ cy ey in
        let xmax := max4 ax bx cx ex in
        let ymax := max4 ay by_ cy ey in
        QRect.of_xywh xmin ymin (xmax - xmin) (ymax - ymin)
    end.
End QTransform.

(** ** Elements, wire nodes and the diagram

    [Element], [Diagram] and the wire node class live in diagram.py, which
    is not under src/; the records hold what src/app.py reads and writes.
    The bounding rectangle and the pin lists are derived from the
    descriptor there, so they are data here. *)

Record Element := mkElement {
  name : string;
  position : Z * Z;
  facing : Facing;
  bounding_rect : Z * Z * Z * Z;                (* xb, yb, w, h *)
  all_inputs : list ((Z * Z) * string);         (* (local position, name) *)
  all_outputs : list ((Z * Z) * string)
}.

Definition set_position (pos : Z * Z) (el : Element) : Element :=
  {| name := name el; position := pos; facing := facing el;
     bounding_rect := bounding_rect el;
     all_inputs := all_inputs el; all_outputs := all_outputs el |}.

Record WireNode := mkWireNode {
  connections : bool * bool * bool * bool;      (* one per direction 0..3 *)
  overlap : bool
}.

Definition connection_count (n : WireNode) : nat :=
  let '(a, b, c, d) := connections n in
  (Nat.b2n a + Nat.b2n b + Nat.b2n c + Nat.b2n d)%nat.

(** Modelled from the spec: the node's [all_connected()] is defined in
    diagram.py; the spec calls a node fully connected when all 4 of its
    directional connections are set. *)
Definition all_connected (n : WireNode) : bool :=
  let '(a, b, c, d) := connections n in a && b && c && d.

(** [node.overlap ^= True] *)
Definition toggle_overlap (n : WireNode) : WireNode :=
  {| connections := connections n; overlap := xorb (overlap n) true |}.

(** Elements are Python objects: the diagram, [_selected_element] and
    [_placing_element] hold references to them, and [el.position = ...]
    is seen through every reference.  [ref] is such a reference, and the
    object store maps each one to the object's current fields. *)
Abbreviation ref := positive.

Record Diagram := mkDiagram {
  elements : list ref;                          (* in iteration order *)
  wires : gmap (Z * Z) WireNode
}.

(** A wire segment as [_get_wire] yields it: [(x1, y1, x2, y2)]. *)
Abbreviation Segment := (Z * Z * Z * Z)%type.

(** The operations of [Diagram] that src/app.py calls and diagram.py
    defines.  The development is parametric in them. *)
Class DiagramFacade := {
  add_element : option ref -> Diagram -> result Diagram;
  remove_element : option ref -> Diagram -> result Diagram;
  change_wires : list Segment -> Diagram -> result Diagram
}.

(** ** The editor session *)

Inductive Mode := EDIT | VIEW.

Module EditState.
Inductive t :=
    NONE | ELEMENT_CLICK | EMPTY_CLICK | WIRE | DRAG | SELECT | PLACE.
End EditState.

Module ViewState.
Inductive t := NONE | CLICK | MOVE.
End ViewState.

(** [_state] holds a member of either enumeration; members of different
    enumerations are never equal. *)
Inductive State :=
  | Edit (s : EditState.t)
  | View (s : ViewState.t).

(** The attributes of [DiagramEditor].  [objects] is the store of the
    element objects; [element_selected] lists the payloads the signal of
    that name has been emitted with, oldest first.  [update()] and
    [setCursor] ask Qt for a repaint and a pointer shape and leave the
    session alone, so they have no counterpart here; neither has the
    executor of the simulation link, which only the release of a VIEW-mode
    click talks to. *)
Record DiagramEditor := mkEditor {
  diagram : Diagram;
  objects : ref -> Element;
  grid_size : Z;
  _translation : QPoint;
  _mode : Mode;
  _state : State;
  _cursor_pos : QPoint;
  _selected_element : option ref;
  _placing_element : option ref;
  _start : option QPoint;
  _end : option QPoint;
  element_selected : list (option ref)
}.

Definition with_diagram (v : Diagram) (e : DiagramEditor) :=
  mkEditor v (objects e) (grid_size e) (_translation e) (_mode e) (_state e)
    (_cursor_pos e) (_selected_element e) (_placing_element e) (_start e)
    (_end e) (element_selected e).

Definition with_objects (v : ref -> Element) (e : DiagramEditor) :=
  mkEditor (diagram e) v (grid_size e) (_translation e) (_mode e) (_state e)
    (_cursor_pos e) (_selected_element e) (_placing_element e) (_start e)
    (_end e) (element_selected e).

Definition with_translation (v : QPoint) (e : DiagramEditor) :=
  mkEditor (diagram e) (objects e) (grid_size e) v (_mode e) (_state e)
    (_cursor_pos e) (_selected_element e) (_placing_element e) (_start e)
    (_end e) (element_selected e).

Definition with_mode (v : Mode) (e : DiagramEditor) :=
  mkEditor (diagram e) (objects e) (grid_size e) (_translation e) v (_state e)
    (_cursor_pos e) (_selected_element e) (_placing_element e) (_start e)
    (_end e) (element_selected e).

Definition with_state (v : State) (e : DiagramEditor) :=
  mkEditor (diagram e) (objects e) (grid_size e) (_translation e) (_mode e) v
    (_cursor_pos e) (_selected_element e) (_placing_element e) (_start e)
    (_end e) (element_selected e).

Definition with_cursor_pos (v : QPoint) (e : DiagramEditor) :=
  mkEditor (diagram e) (objects e) (grid_size e) (_translation e) (_mode e)
    (_state e) v (_selected_element e) (_placing_element e) (_start e)
    (_end e) (element_selected e).

Definition with_selected_element (v : option ref) (e : DiagramEditor) :=
  mkEditor (diagram e) (objects e) (grid_size e) (_translation e) (_mode e)
    (_state e) (_cursor_pos e) v (_placing_element e) (_start e)
    (_end e) (element_selected e).

Definition with_placing_element (v : option ref) (e : DiagramEditor) :=
  mkEditor (diagram e) (objects e) (grid_size e) (_translation e) (_mode e)
    (_state e) (_cursor_pos e) (_selected_element e) v (_start e)
    (_end e) (element_selected e).

Definition with_start (v : option QPoint) (e : DiagramEditor) :=
  mkEditor (diagram e) (objects e) (grid_size e) (_translation e) (_mode e)
    (_state e) (_cursor_pos e) (_selected_element e) (_placing_element e) v
    (_end e) (element_selected e).

Definition with_end (v : option QPoint) (e : DiagramEditor) :=
  mkEditor (diagram e) (objects e) (grid_size e) (_translation e) (_mode e)
    (_state e) (_cursor_pos e) (_selected_element e) (_placing_element e)
    (_start e) v (element_selected e).

(** [self.element_selected.emit(v)] *)
Definition emit (v : option ref) (e : DiagramEditor) :=
  mkEditor (diagram e) (objects e) (grid_size e) (_translation e) (_mode e)
    (_state e) (_cursor_pos e) (_selected_element e) (_placing_element e)
    (_start e) (_end e) (element_selected e ++ [v]).

(** [el.position = pos] on the object behind [r] *)
Definition store_position (r : ref) (pos : Z * Z) (h : ref -> Element)
  : ref -> Element :=
  fun r' => if Pos.eqb r' r then set_position pos (h r) else h r'.

(** [a is b] on references that may be [None] *)
Definition is_same (a b : option ref) : bool :=
  match a, b with
  | Some r1, Some r2 => Pos.eqb r1 r2
  | None, None => true
  | _, _ => false
  end.

(** A handler runs to completion, or raises and leaves the session as the
    statements before the raise made it. *)
Inductive outcome :=
  | Done (e : DiagramEditor)
  | Raised (x : exn) (e : DiagramEditor).

Definition attempt {A} (r : result A) (e : DiagramEditor)
    (k : A -> outcome) : outcome :=
  match r with
  | Ok a => k a
  | Raise x => Raised x e
  end.

Notation "'try!' x ':=' r 'on' e 'in' k" := (attempt r e (fun x => k))
  (at level 10, x name, r at level 100, e at level 9, k at level 200).

(** The session an outcome leaves behind *)
Definition session (o : outcome) : DiagramEditor :=
  match o with Done e => e | Raised _ e => e end.

(** ** Generators

    [_get_wire] contains [yield], so it is a generator function: a call
    runs none of its body and evaluates to a generator object, never to
    [None]; a [return None] in the body only ends the iteration.  The body
    runs when the object is iterated, which the diagram does inside the
    call the object is passed to, while the session is as it was at the
    call. *)
Inductive pyvalue (A : Type) :=
  | PyNone
  | PyGenerator (items : result (list A)).
Arguments PyNone {A}.
Arguments PyGenerator {A} items.

Definition call_generator {A} (body : result (list A)) : pyvalue A :=
  PyGenerator body.

(** ** Wire router: [_get_wire]

    The items the generator yields when it is iterated in session [e]. *)
Definition _get_wire (e : DiagramEditor) : result (list Segment) :=
  match _state e with
  | Edit EditState.WIRE =>
      let! ws := from_option TypeError (_start e) in
      let! we := from_option TypeError (_end e) in
      let delta := we -p ws in
      if QPoint.eqb delta QPoint.zero then Ok []
      else if Z.abs (QPoint.x delta) >? Z.abs (QPoint.y delta) then
        Ok [ (QPoint.x ws, QPoint.y ws, QPoint.x we, QPoint.y ws);
             (QPoint.x we, QPoint.y ws, QPoint.x we, QPoint.y we) ]
      else
        Ok [ (QPoint.x ws, QPoint.y ws, QPoint.x ws, QPoint.y we);
             (QPoint.x ws, QPoint.y we, QPoint.x we, QPoint.y we) ]
  | _ => Ok []
  end.

(** ** Hit tester: [element_at_position] *)

(** [QVector2D(pt - pos).length() <= self.grid_size / 2], in exact
    arithmetic: both sides are doubled and squared.  For grid sizes below
    a few thousand pixels the single-precision length decides the same. *)
Definition within_half_grid (pt pos : QPoint) (gs : Z) : bool :=
  let v := pt -p pos in
  (0 <=? gs) &&
  (4 * (QPoint.x v * QPoint.x v + QPoint.y v * QPoint.y v) <=? gs * gs).

(** The point the pin loop compares the pointer with:
    [rx, ry = rotate(x, y, facing); pt = QPoint(p[0] + rx, p[1] + ry) * gs] *)
Definition pin_point (el : Element) (p : Z * Z) (gs : Z) : QPoint :=
  let '(x, y) := position el in
  let '(rx, ry) := rotate x y (facing el) in
  QPoint.scale (QPoint.mk (fst p + rx) (snd p + ry)) gs.

(** [r = transform.mapRect(QRect(xb * gs, yb * gs, w * gs, h * gs))] *)
Definition body_rect (el : Element) (gs : Z) : QRect :=
  let '(x, y) := position el in
  let '(xb, yb, w, h) := bounding_rect el in
  let transform := QTransform.mk (x * gs) (y * gs) (facing el) in
  QTransform.mapRect transform (QRect.of_xywh (xb * gs) (yb * gs) (w * gs) (h * gs)).

Definition near_a_pin (el : Element) (pos : QPoint) (gs : Z) : bool :=
  existsb (fun pn => within_half_grid (pin_point el (fst pn) gs) pos gs)
          (all_inputs el ++ all_outputs el).

(** The loop over [self.diagram.elements] *)
Fixpoint element_at_loop (h : ref -> Element) (gs : Z) (pos : QPoint)
    (els : list ref) : option ref :=
  match els with
  | [] => None
  | r :: rest =>
      let element := h r in
      if near_a_pin element pos gs then None
      else if QRect.contains (body_rect element gs) pos then Some r
      else element_at_loop h gs pos rest
  end.

Definition element_at_position (e : DiagramEditor) (pos : QPoint)
  : option ref :=
  element_at_loop (objects e) (grid_size e) pos (elements (diagram e)).

(** ** Actions and pointer-event handlers *)

Section Handlers.
Context `{F : DiagramFacade}.

Definition toggle_interaction_mode (e : DiagramEditor) : DiagramEditor :=
    let m := match _mode e with VIEW => EDIT | EDIT => VIEW end in
    let e := with_mode m e in
    with_state (match m with
                | EDIT => Edit EditState.NONE
                | VIEW => View ViewState.NONE
                end) e.

Definition cancel_interaction (e : DiagramEditor) : DiagramEditor :=
    match _mode e with
    | VIEW => with_state (View ViewState.NONE) e
    | EDIT => with_state (Edit EditState.NONE) e
    end.

Definition select_element (element : option ref) (e : DiagramEditor)
    : DiagramEditor :=
    let curr := _selected_element e in
    let e := with_selected_element element (with_state (Edit EditState.SELECT) e) in
    if is_same curr element then e else emit element e.

Definition unselect (e : DiagramEditor) : DiagramEditor :=
    let curr := _selected_element e in
    let e := with_state (Edit EditState.NONE) (with_selected_element None e) in
    match curr with
    | Some _ => emit None e
    | None => e
    end.

Definition delete_element (element : option ref) (e : DiagramEditor)
    : outcome :=
    try! dg := remove_element element (diagram e) on e in
    let e := with_diagram dg e in
    match _state e with
    | Edit EditState.SELECT =>
        if is_same (_selected_element e) element then Done (unselect e)
        else Done e
    | _ => Done e
    end.

Definition delete_selected_element (e : DiagramEditor) : outcome :=
    delete_element (_selected_element e) e.

Definition start_placing (element : option ref) (e : DiagramEditor)
    : DiagramEditor :=
    let e := match _mode e with
             | EDIT => e
             | VIEW => toggle_interaction_mode e
             end in
    with_placing_element element (with_state (Edit EditState.PLACE) e).

Definition stop_placing (e : DiagramEditor) : DiagramEditor :=
    with_state (Edit EditState.NONE) (with_mode EDIT e).

Definition mousePressEvent (pos : QPoint) (e : DiagramEditor) : outcome :=
    let gs := grid_size e in
    let d := pos -p _translation e in
    try! p := to_grid d gs on e in
    match _mode e with
    | VIEW =>
        Done (with_end (Some d) (with_start (Some d)
               (with_state (View ViewState.CLICK) e)))
    | EDIT =>
        match _state e with
        | Edit EditState.NONE =>
            let e1 :=
              match element_at_position e d with
              | Some el =>
                  emit (Some el)
                    (with_selected_element (Some el)
                       (with_state (Edit EditState.ELEMENT_CLICK) e))
              | None => with_state (Edit EditState.EMPTY_CLICK) e
              end in
            Done (with_end (Some p) (with_start (Some p) e1))
        | Edit EditState.SELECT =>
            let e1 :=
              match element_at_position e d with
              | None => emit None (with_state (Edit EditState.EMPTY_CLICK) e)
              | Some el =>
                  let e2 :=
                    if is_same (_selected_element e) (Some el) then e
                    else with_selected_element (Some el) (emit (Some el) e) in
                  with_state (Edit EditState.ELEMENT_CLICK) e2
              end in
            Done (with_end (Some p) (with_start (Some p) e1))
        | Edit EditState.PLACE => Done e
        | _ => Done (with_state (Edit EditState.NONE) e)
        end
    end.

Definition mouseMoveEvent (ep : QPoint) (e : DiagramEditor) : outcome :=
    let d := ep -p _translation e in
    let gs := grid_size e in
    try! p := to_grid d gs on e in
    try! c := to_grid ep gs on e in
    let e := with_cursor_pos (QPoint.scale c gs) e in
    match _mode e with
    | VIEW =>
        match _state e with
        | View ViewState.CLICK =>
            Done (with_end (Some d) (with_state (View ViewState.MOVE) e))
        | View ViewState.MOVE => Done (with_end (Some d) e)
        | _ => Done e
        end
    | EDIT =>
        match _state e with
        | Edit EditState.PLACE =>
            try! r := from_option AttributeError (_placing_element e) on e in
            Done (with_objects
                    (store_position r (QPoint.x p, QPoint.y p) (objects e)) e)
        | Edit EditState.ELEMENT_CLICK =>
            Done (with_end (Some p) (with_state (Edit EditState.DRAG) e))
        | Edit EditState.DRAG => Done (with_end (Some p) e)
        | Edit EditState.EMPTY_CLICK =>
            Done (with_end (Some p) (with_state (Edit EditState.WIRE) e))
        | Edit EditState.WIRE => Done (with_end (Some p) e)
        | _ => Done e
        end
    end.

(** [self._end - self._start] *)
Definition anchor_delta (e : DiagramEditor) : result QPoint :=
    let! en := from_option TypeError (_end e) in
    let! st := from_option TypeError (_start e) in
    Ok (en -p st).

Definition mouseReleaseEvent (ep : QPoint) (e : DiagramEditor) : outcome :=
    let d := ep -p _translation e in
    let gs := grid_size e in
    try! p := to_grid d gs on e in
    match _mode e with
    | VIEW =>
        match _state e with
        | View ViewState.MOVE =>
            let e := with_state (View ViewState.NONE) e in
            try! delta := anchor_delta e on e in
            Done (with_translation (_translation e +p delta) e)
        | View ViewState.CLICK =>
            (* [element_at_position(d)] is looked up and, with a simulation
               running, a bit of an exposed input pin is flipped through
               the executor; the session only has its state reset *)
            Done (with_state (View ViewState.NONE) e)
        | _ => Done e
        end
    | EDIT =>
        match _state e with
        | Edit EditState.PLACE =>
            let e := with_state (Edit EditState.SELECT) e in
            try! dg := add_element (_placing_element e) (diagram e) on e in
            let e := with_diagram dg e in
            let e := with_selected_element (_placing_element e) e in
            Done (emit (_selected_element e) e)
        | Edit EditState.DRAG =>
            try! el := from_option AttributeError (_selected_element e) on e in
            let '(x, y) := position (objects e el) in
            let pos := QPoint.mk x y in
            try! delta := anchor_delta e on e in
            let pos := pos +p delta in
            let e := with_objects
                       (store_position el (QPoint.x pos, QPoint.y pos)
                          (objects e)) e in
            Done (with_state (Edit EditState.NONE) e)
        | Edit EditState.WIRE =>
            match call_generator (_get_wire e) with
            | PyNone => Done (with_state (Edit EditState.NONE) e)
            | PyGenerator items =>
                try! segments := items on e in
                try! dg := change_wires segments (diagram e) on e in
                Done (with_state (Edit EditState.NONE) (with_diagram dg e))
            end
        | Edit EditState.ELEMENT_CLICK =>
            Done (with_state (Edit EditState.SELECT) e)
        | Edit EditState.EMPTY_CLICK =>
            let e :=
              match wires (diagram e) !! (QPoint.x p, QPoint.y p) with
              | Some node =>
                  if all_connected node then
                    with_diagram
                      (mkDiagram (elements (diagram e))
                         (<[(QPoint.x p, QPoint.y p) := toggle_overlap node]>
                            (wires (diagram e)))) e
                  else e
              | None => e
              end in
            Done (with_state (Edit EditState.NONE) e)
        | _ => Done e
        end
    end.

(** Pointer events, and a run of the handlers over a list of them.  The
    event loop goes on after a handler raised. *)
Inductive Event :=
    | Press (pos : QPoint)
    | Move (pos : QPoint)
    | Release (pos : QPoint).

Definition handle (ev : Event) (e : DiagramEditor) : outcome :=
    match ev with
    | Press pos => mousePressEvent pos e
    | Move pos => mouseMoveEvent pos e
    | Release pos => mouseReleaseEvent pos e
    end.

Fixpoint run (evs : list Event) (e : DiagramEditor) : DiagramEditor :=
    match evs with
    | [] => e
    | ev :: rest => run rest (session (handle ev e))
    end.

End Handlers.

(** ** A diagram to run the handlers on

    Modelled from the spec: the methods of [Diagram] are defined in
    diagram.py, which is not under src/.  The spec's facade keeps the
    elements as an ordered sequence with [addElement] and [removeElement],
    and leaves open whether committing wires strictly adds them; the
    instance below appends, removes the given element if it is there, and
    strictly adds.  It serves to run the handlers on concrete sessions; the
    general statements hold for every facade. *)

Definition set_connection (dir : Facing) (n : WireNode) : WireNode :=
  let '(a, b, c, d) := connections n in
  {| connections :=
       match dir with
       | EAST => (true, b, c, d)
       | NORTH => (a, true, c, d)
       | WEST => (a, b, true, d)
       | SOUTH => (a, b, c, true)
       end;
     overlap := overlap n |}.

Definition connect (pt : Z * Z) (dir : Facing)
    (w : gmap (Z * Z) WireNode) : gmap (Z * Z) WireNode :=
  let n := default (mkWireNode (false, false, false, false) false) (w !! pt) in
  <[pt := set_connection dir n]> w.

Definition add_segment (w : gmap (Z * Z) WireNode) (s : Segment)
  : gmap (Z * Z) WireNode :=
  let '(sx, sy, ex, ey) := s in
  if sy =? ey then
    foldl (fun w x => connect (x + 1, sy) WEST (connect (x, sy) EAST w))
          w (seqZ (Z.min sx ex) (Z.abs (ex - sx)))
  else if sx =? ex then
    foldl (fun w y => connect (sx, y + 1) NORTH (connect (sx, y) SOUTH w))
          w (seqZ (Z.min sy ey) (Z.abs (ey - sy)))
  else w.

#[export] Instance sequence_facade : DiagramFacade := {|
  add_element el dg :=
    match el with
    | Some r => Ok (mkDiagram (elements dg ++ [r]) (wires dg))
    | None => Raise FacadeError
    end;
  remove_element el dg :=
    match el with
    | Some r =>
        Ok (mkDiagram (filter (fun r' => r' <> r) (elements dg)) (wires dg))
    | None => Ok dg
    end;
  change_wires segments dg :=
    Ok (mkDiagram (elements dg) (foldl add_segment (wires dg) segments))
|}.

(** A diagram that refuses every wire commit: it makes a call of
    [change_wires] visible in the outcome of a handler. *)
Definition refusing_commits : DiagramFacade := {|
  add_element := add_element;
  remove_element := remove_element;
  change_wires _ _ := Raise FacadeError
|}.

(** [DiagramEditor.__init__] *)
Definition new_editor (dg : Diagram) (h : ref -> Element) (gs : Z)
  : DiagramEditor :=
  {| diagram := dg; objects := h; grid_size := gs;
     _translation := QPoint.zero; _mode := EDIT;
     _state := Edit EditState.NONE; _cursor_pos := QPoint.zero;
     _selected_element := None; _placing_element := None;
     _start := None; _end := None; element_selected := [] |}.

(** The session of a wire gesture from [a] to [b] *)
Definition wire_gesture (a b : QPoint) (e : DiagramEditor) : DiagramEditor :=
  with_end (Some b) (with_start (Some a) (with_state (Edit EditState.WIRE) e)).

(** A gate-like element: a 2 by 2 body around its origin, an input pin two
    cells to the west and an output pin two cells to the east. *)
Definition gate_at (nm : string) (pos : Z * Z) (f : Facing) : Element :=
  {| name := nm; position := pos; facing := f;
     bounding_rect := (-1, -1, 2, 2);
     all_inputs := [((-2, 0), "in0"%string)];
     all_outputs := [((2, 0), "out"%string)] |}.

(** One gate at (2,2), default grid size. *)
Definition one_gate : DiagramEditor :=
  new_editor (mkDiagram [1%positive] ∅)
             (fun _ => gate_at "not_1" (2, 2) EAST) 16.

(** Three gates in a row: the output pin of each of the first two lies on
    the body of the next, the input pin of each of the last two on the body
    of the one before. *)
Definition gate_row : DiagramEditor :=
  new_editor (mkDiagram [1%positive; 2%positive; 3%positive] ∅)
             (fun r => if Pos.eqb r 1 then gate_at "not_1" (1, 1) EAST
                       else if Pos.eqb r 2 then gate_at "not_2" (3, 1) EAST
                       else gate_at "not_3" (5, 1) EAST) 16.

(** Two gates side by side: the input pin of the second one lies on the
    body of the first. *)
Definition two_gates : DiagramEditor :=
  new_editor (mkDiagram [1%positive; 2%positive] ∅)
             (fun r => if Pos.eqb r 1 then gate_at "not_1" (1, 1) EAST
                       else gate_at "not_2" (3, 1) EAST) 16.

(** The gate has been clicked: it is the selected element, in state
    SELECT. *)
Definition selected_gate : DiagramEditor :=
  run [Press (QPoint.mk 32 32); Release (QPoint.mk 32 32)] one_gate.

(** The selected gate has been deselected by a click on an empty point. *)
Definition deselected_gate : DiagramEditor :=
  run [Press (QPoint.mk 200 200); Release (QPoint.mk 200 200)] selected_gate.

(** The gate is pressed at its centre, the grid point (2,2). *)
Definition pressed_gate : DiagramEditor :=
  run [Press (QPoint.mk 32 32)] one_gate.

(** The gate has been dragged one cell to the east and dropped. *)
Definition dropped_gate : DiagramEditor :=
  run [Press (QPoint.mk 32 32); Move (QPoint.mk 48 32);
       Release (QPoint.mk 48 32)] one_gate.

(** A wire gesture that has not left its first grid point, (10,10). *)
Definition zero_length_gesture : DiagramEditor :=
  run [Press (QPoint.mk 160 160); Move (QPoint.mk 161 160)] one_gate.

(** Two wire gestures drawn across each other at (5,5), then a press on the
    crossing. *)
Definition pressed_crossing : DiagramEditor :=
  run [ Press (QPoint.mk 64 80); Move (QPoint.mk 96 80);
        Release (QPoint.mk 96 80);
        Press (QPoint.mk 80 64); Move (QPoint.mk 80 96);
        Release (QPoint.mk 80 96);
        Press (QPoint.mk 80 80) ]
      (new_editor (mkDiagram [] ∅) (fun _ => gate_at "not_1" (0, 0) EAST) 16).

(** A pan under way in VIEW mode: pressed at (100,50), pointer now at
    (140,70). *)
Definition panning : DiagramEditor :=
  run [Press (QPoint.mk 100 50); Move (QPoint.mk 140 70)]
      (toggle_interaction_mode one_gate).

(** ** Notions the statements use *)

(** The two shapes of a route from [a] to [b] *)
Definition horizontal_first (a b : QPoint) : list Segment :=
  [ (QPoint.x a, QPoint.y a, QPoint.x b, QPoint.y a);
    (QPoint.x b, QPoint.y a, QPoint.x b, QPoint.y b) ].

Definition vertical_first (a b : QPoint) : list Segment :=
  [ (QPoint.x a, QPoint.y a, QPoint.x a, QPoint.y b);
    (QPoint.x a, QPoint.y b, QPoint.x b, QPoint.y b) ].

(** A segment whose two ends are the same grid point *)
Definition zero_length (s : Segment) : bool :=
  let '(sx, sy, ex, ey) := s in (sx =? ex) && (sy =? ey).

(** The centre of a pin as the specification places it: the pin's local
    position, in pixels, mapped through the element's transform. *)
Definition spec_pin_center (el : Element) (p : Z * Z) (gs : Z) : QPoint :=
  let '(x, y) := position el in
  let '(tx, ty) :=
    QTransform.map (QTransform.mk (x * gs) (y * gs) (facing el))
                   (fst p * gs) (snd p * gs) in
  QPoint.mk tx ty.

(** The overlap flag is set on 4-way nodes only. *)
Definition overlap_only_on_crossings (w : gmap (Z * Z) WireNode) : Prop :=
  forall pt n, w !! pt = Some n -> overlap n = true -> connection_count n = 4%nat.

(** The wire network after the release of an empty click at grid point
    [p] *)
Definition toggled_at (p : QPoint) (w : gmap (Z * Z) WireNode)
  : gmap (Z * Z) WireNode :=
  match w !! (QPoint.x p, QPoint.y p) with
  | Some node =>
      if all_connected node
      then <[(QPoint.x p, QPoint.y p) := toggle_overlap node]> w
      else w
  | None => w
  end.

(** The grid point the handlers compute from an event position *)
Definition grid_point (tr : QPoint) (gs : Z) (pos : QPoint) : QPoint :=
  QPoint.mk (round_half_even (QPoint.x (pos -p tr)) gs)
            (round_half_even (QPoint.y (pos -p tr)) gs).

(** The running end anchor after the moves [mvs], starting from [en] *)
Definition running_end (tr : QPoint) (gs : Z) (en : QPoint)
    (mvs : list QPoint) : QPoint :=
  default en (grid_point tr gs <$> last mvs).

(** ** Key, palette and menu actions

    What reaches the editor besides pointer events: the shortcuts E, Delete
    and Escape, the element palette ([add_element] and [add_custom_element]
    of the main window call [start_placing]) and the diagram list
    ([change_diagram] swaps the diagram and calls [stop_placing]). *)
Inductive Action :=
  | Pointer (ev : Event)
  | ToggleMode
  | Cancel
  | Delete
  | StartPlacing (r : ref)
  | ChangeDiagram (dg : Diagram).

Definition act `{F : DiagramFacade} (a : Action) (e : DiagramEditor)
  : outcome :=
  match a with
  | Pointer ev => handle ev e
  | ToggleMode => Done (toggle_interaction_mode e)
  | Cancel => Done (cancel_interaction e)
  | Delete => delete_selected_element e
  | StartPlacing r => Done (start_placing (Some r) e)
  | ChangeDiagram dg => Done (stop_placing (with_diagram dg e))
  end.

(** The session after a list of actions, with the exceptions raised on the
    way, oldest first. *)
Fixpoint perform `{F : DiagramFacade} (acts : list Action)
    (e : DiagramEditor) : DiagramEditor * list exn :=
  match acts with
  | [] => (e, [])
  | a :: rest =>
      match act a e with
      | Done e' => perform rest e'
      | Raised x e' => let '(e'', xs) := perform rest e' in (e'', x :: xs)
      end
  end.

Definition is_set {A} (o : option A) : bool :=
  match o with Some _ => true | None => false end.

(** What the handlers rely on without testing it: the state belongs to the
    mode, a gesture under way has both anchors, a clicked or dragged
    element and an element being placed are there. *)
Definition well_formed (e : DiagramEditor) : bool :=
  match _mode e, _state e with
  | EDIT, Edit s =>
      match s with
      | EditState.ELEMENT_CLICK | EditState.DRAG =>
          is_set (_selected_element e) && is_set (_start e) && is_set (_end e)
      | EditState.EMPTY_CLICK | EditState.WIRE =>
          is_set (_start e) && is_set (_end e)
      | EditState.PLACE => is_set (_placing_element e)
      | EditState.NONE | EditState.SELECT => true
      end
  | VIEW, View s =>
      match s with
      | ViewState.CLICK | ViewState.MOVE =>
          is_set (_start e) && is_set (_end e)
      | ViewState.NONE => true
      end
  | _, _ => false
  end.

(** ** What [paintEvent] shows of a gesture under way *)

(** [trans], the translation the view is painted with: during a pan
    [self._translation + self._end - self._start]. *)
Definition paint_translation (e : DiagramEditor) : result QPoint :=
  match _mode e, _state e with
  | VIEW, View ViewState.MOVE =>
      let! en := from_option TypeError (_end e) in
      let! st := from_option TypeError (_start e) in
      Ok (_translation e +p en -p st)
  | _, _ => Ok (_translation e)
  end.

(** The element painted as a ghost and the grid position it is painted at:
    the dragged element moved by [self._end - self._start], or the element
    being placed where it is. *)
Definition paint_ghost (e : DiagramEditor) : result (option (ref * (Z * Z))) :=
  match _state e with
  | Edit EditState.DRAG =>
      let! delta := anchor_delta e in
      let! el := from_option AttributeError (_selected_element e) in
      let '(x, y) := position (objects e el) in
      Ok (Some (el, (x + QPoint.x delta, y + QPoint.y delta)))
  | Edit EditState.PLACE =>
      let! el := from_option AttributeError (_placing_element e) in
      Ok (Some (el, position (objects e el)))
  | _ => Ok None
  end.

(** ** Naming of new elements *)

(** [element_factory(cls, name, ...)] returns a closure over a counter;
    the closure's state is the counter, a call of it increments the counter
    and names the new element [name + '_' + str(counter)]. *)
Record Factory := mkFactory { base_name : string; counter : nat }.

Definition element_factory (nm : string) : Factory := mkFactory nm 0.

Definition wrapper (f : Factory) : Factory * string :=
  let c := S (counter f) in
  (mkFactory (base_name f) c, base_name f +:+ "_" +:+ pretty c).

(** [add_custom_element] keeps one counter per base name in a
    [defaultdict(int)]. *)
Definition add_custom_element (base : string) (counters : gmap string nat)
  : gmap string nat * string :=
  let c := S (default 0%nat (counters !! base)) in
  (<[base := c]> counters, base +:+ "_" +:+ pretty c).

(** The names of the elements made by a list of palette clicks *)
Fixpoint custom_names (bases : list string) (counters : gmap string nat)
  : list string :=
  match bases with
  | [] => []
  | b :: rest =>
      let '(counters', nm) := add_custom_element b counters in
      nm :: custom_names rest counters'
  end.

(** ** More notions the statements use *)

(** The route from [a] to [b], as [_get_wire] computes it from the two
    anchors *)
Definition route (a b : QPoint) : list Segment :=
  if QPoint.eqb (b -p a) QPoint.zero then []
  else if Z.abs (QPoint.x b - QPoint.x a) >? Z.abs (QPoint.y b - QPoint.y a)
       then horizontal_first a b
       else vertical_first a b.

Definition segment_start (s : Segment) : QPoint :=
  let '(sx, sy, _, _) := s in QPoint.mk sx sy.

Definition segment_end (s : Segment) : QPoint :=
  let '(_, _, ex, ey) := s in QPoint.mk ex ey.

Definition axis_aligned (s : Segment) : bool :=
  let '(sx, sy, ex, ey) := s in (sx =? ex) || (sy =? ey).

Definition segment_length (s : Segment) : Z :=
  let '(sx, sy, ex, ey) := s in Z.abs (ex - sx) + Z.abs (ey - sy).

(** The session seen through a view panned by [t] more *)
Definition panned_by (t : QPoint) (e : DiagramEditor) : DiagramEditor :=
  with_translation (_translation e +p t) e.

Definition outcome_map (f : DiagramEditor -> DiagramEditor) (o : outcome)
  : outcome :=
  match o with
  | Done e => Done (f e)
  | Raised x e => Raised x (f e)
  end.

(** A 3 by 2 gate at (3,1), turned to face north. *)
Definition turned_gate : Element :=
  {| name := "and_1"; position := (3, 1); facing := NORTH;
     bounding_rect := (0, -1, 3, 2);
     all_inputs := [((0, 0), "in0"%string)];
     all_outputs := [((3, 0), "out"%string)] |}.

(** A press on an empty grid point, (10,10), has started a gesture. *)
Definition pressed_empty : DiagramEditor :=
  run [Press (QPoint.mk 160 160)] one_gate.

(** An exception that some call of the diagram raises *)
Definition raised_by_diagram `{F : DiagramFacade} (x : exn) : Prop :=
  (exists el dg, add_element el dg = Raise x) \/
  (exists el dg, remove_element el dg = Raise x) \/
  (exists segments dg, change_wires segments dg = Raise x).

(** No gesture is under way: the state is the NONE of the mode. *)
Definition idle (e : DiagramEditor) : bool :=
  match _mode e, _state e with
  | EDIT, Edit EditState.NONE | VIEW, View ViewState.NONE => true
  | _, _ => false
  end.

(** The listener of [element_selected] knows the selection: the payload of
    the last emission is [_selected_element], or nothing was emitted yet and
    nothing is selected. *)
Definition listener_in_sync (e : DiagramEditor) : bool :=
  match last (element_selected e) with
  | Some v => is_same v (_selected_element e)
  | None => negb (is_set (_selected_element e))
  end.

(** A press on an empty point while an element is selected *)
Definition deselecting_press (a : Action) (e : DiagramEditor) : bool :=
  match a, _mode e, _state e with
  | Pointer (Press pos), EDIT, Edit EditState.SELECT =>
      negb (is_set (element_at_position e (pos -p _translation e)))
  | _, _, _ => false
  end.

(** The names of the elements made by [n] clicks on one palette entry *)
Fixpoint factory_names (f : Factory) (n : nat) : list string :=
  match n with
  | O => []
  | S n' => let '(f', nm) := wrapper f in nm :: factory_names f' n'
  end.

(** Does the character occur in the string? *)
Fixpoint mentions (c : Ascii.ascii) (s : string) : bool :=
  match s with
  | EmptyString => false
  | String a s' => Ascii.eqb a c || mentions c s'
  end.

(** * Properties *)

(** ** Points, rounding and references *)

Lemma QPoint_eqb_eq a b : QPoint.eqb a b = true <-> a = b.
Proof.
  destruct a as [ax ay], b as [bx by_]; unfold QPoint.eqb; simpl.
  rewrite andb_true_iff, !Z.eqb_eq. split.
  - intros [-> ->]; reflexivity.
  - intros [= -> ->]; split; reflexivity.
Qed.

Lemma QPoint_eqb_neq a b : QPoint.eqb a b = false <-> a <> b.
Proof.
  rewrite <- QPoint_eqb_eq. destruct (QPoint.eqb a b); split; congruence.
Qed.

Lemma QPoint_sub_zero_iff a b : a -p b = QPoint.zero <-> a = b.
Proof.
  destruct a as [ax ay], b as [bx by_]; unfold QPoint.sub, QPoint.zero; simpl.
  split.
  - intros [= Hx Hy]. f_equal; lia.
  - intros [= -> ->]. f_equal; lia.
Qed.

Example round_ties :
  round_half_even 8 16 = 0 /\ round_half_even 24 16 = 2 /\
  round_half_even (-8) 16 = 0 /\ round_half_even (-24) 16 = -2 /\
  round_half_even 9 16 = 1 /\ round_half_even 7 16 = 0 /\
  round_half_even 24 (-16) = -2 /\ round_half_even 25 (-16) = -2.
Proof. repeat split. Qed.

Lemma to_grid_ok d gs :
  gs <> 0 ->
  to_grid d gs =
    Ok (QPoint.mk (round_half_even (QPoint.x d) gs)
                  (round_half_even (QPoint.y d) gs)).
Proof.
  intros Hgs. unfold to_grid, py_round_div.
  destruct (Z.eqb_spec gs 0) as [->|_]; [contradiction | reflexivity].
Qed.

Lemma is_same_true a b : is_same a b = true <-> a = b.
Proof.
  destruct a as [r1|], b as [r2|]; simpl; try (split; congruence).
  rewrite Pos.eqb_eq. split; congruence.
Qed.

Lemma is_same_false a b : is_same a b = false <-> a <> b.
Proof.
  rewrite <- is_same_true. destruct (is_same a b); split; congruence.
Qed.

(** The body of the gate at (2,2) covers the pixels 16 to 47 in both
    directions; its output pin sits at (64,32). *)
Example press_on_gate_body :
  element_at_position one_gate (QPoint.mk 32 32) = Some 1%positive /\
  element_at_position one_gate (QPoint.mk 60 32) = None /\
  element_at_position one_gate (QPoint.mk 47 47) = Some 1%positive /\
  element_at_position one_gate (QPoint.mk 48 47) = None.
Proof. repeat split. Qed.

(** ** Wire router *)

Lemma _get_wire_eq e a b :
  _state e = Edit EditState.WIRE -> _start e = Some a -> _end e = Some b ->
  _get_wire e =
    if QPoint.eqb (b -p a) QPoint.zero then Ok []
    else if Z.abs (QPoint.x b - QPoint.x a) >? Z.abs (QPoint.y b - QPoint.y a)
         then Ok (horizontal_first a b)
         else Ok (vertical_first a b).
Proof.
  intros Hs Ha Hb. unfold _get_wire. rewrite Hs, Ha, Hb. reflexivity.
Qed.

Lemma delta_nonzero a b : a <> b -> QPoint.eqb (b -p a) QPoint.zero = false.
Proof.
  intros Hne. apply QPoint_eqb_neq. intros H.
  apply Hne. symmetry. apply QPoint_sub_zero_iff. exact H.
Qed.

(** The router reads the state and the two anchors, and nothing else. *)
Lemma _get_wire_ext e1 e2 :
  _state e1 = _state e2 -> _start e1 = _start e2 -> _end e1 = _end e2 ->
  _get_wire e1 = _get_wire e2.
Proof.
  intros Hs Ha Hb. unfold _get_wire. rewrite Hs, Ha, Hb. reflexivity.
Qed.

(** C8: for start [a] and end [b], [a <> b], the router emits the horizontal
    segment from [a] to [(b.x, a.y)] and then the vertical one to [b] when
    [|delta.x| > |delta.y|], and otherwise the vertical segment from [a] to
    [(a.x, b.y)] and then the horizontal one to [b]; from (0,0) to (3,1) it
    emits (0,0)-(3,0), (3,0)-(3,1), and from (0,0) to (1,3) it emits
    (0,0)-(0,3), (0,3)-(1,3). *)
Theorem router_tie_break :
  (forall e a b,
     _state e = Edit EditState.WIRE -> _start e = Some a -> _end e = Some b ->
     a <> b ->
     _get_wire e =
       Ok (if Z.abs (QPoint.x b - QPoint.x a) >? Z.abs (QPoint.y b - QPoint.y a)
           then [ (QPoint.x a, QPoint.y a, QPoint.x b, QPoint.y a);
                  (QPoint.x b, QPoint.y a, QPoint.x b, QPoint.y b) ]
           else [ (QPoint.x a, QPoint.y a, QPoint.x a, QPoint.y b);
                  (QPoint.x a, QPoint.y b, QPoint.x b, QPoint.y b) ])) /\
  (forall e,
     _get_wire (wire_gesture (QPoint.mk 0 0) (QPoint.mk 3 1) e)
     = Ok [ (0, 0, 3, 0); (3, 0, 3, 1) ]) /\
  (forall e,
     _get_wire (wire_gesture (QPoint.mk 0 0) (QPoint.mk 1 3) e)
     = Ok [ (0, 0, 0, 3); (0, 3, 1, 3) ]).
Proof.
  split; [| split; intros e; reflexivity].
  intros e a b Hs Ha Hb Hne.
  rewrite (_get_wire_eq e a b Hs Ha Hb), (delta_nonzero a b Hne).
  destruct (_ >? _); reflexivity.
Qed.

Lemma router_tie_break_witness :
  _get_wire (wire_gesture (QPoint.mk 4 7) (QPoint.mk 2 (-1)) one_gate)
  = Ok [ (4, 7, 4, -1); (4, -1, 2, -1) ].
Proof.
  apply (proj1 router_tie_break
           (wire_gesture (QPoint.mk 4 7) (QPoint.mk 2 (-1)) one_gate)
           (QPoint.mk 4 7) (QPoint.mk 2 (-1)));
    [reflexivity | reflexivity | reflexivity | discriminate].
Defined.

(** C2, the claim as stated fails: from (0,0) to (3,0) the two points share
    their y, and the router still yields two segments, the second one of
    length zero. *)
Lemma router_aligned_yields_two :
  QPoint.mk 0 0 <> QPoint.mk 3 0 /\
  QPoint.y (QPoint.mk 0 0) = QPoint.y (QPoint.mk 3 0) /\
  _get_wire (wire_gesture (QPoint.mk 0 0) (QPoint.mk 3 0) one_gate)
    = Ok [ (0, 0, 3, 0); (3, 0, 3, 0) ] /\
  (forall segments,
     _get_wire (wire_gesture (QPoint.mk 0 0) (QPoint.mk 3 0) one_gate)
       = Ok segments -> length segments <> 1%nat).
Proof.
  split; [discriminate |].
  split; [reflexivity | split; [reflexivity |]].
  intros segments [= <-]. discriminate.
Qed.

(** C2, amended: for [a <> b] the router yields exactly 2 segments; when
    [a.x = b.x] or [a.y = b.y] the first runs from [a] to [b] and the second
    is the zero-length segment at [b], so exactly 1 has a length; otherwise
    neither has length zero; and the output is a function of the state and
    the two anchors alone. *)
Theorem router_two_segments e a b :
  _state e = Edit EditState.WIRE -> _start e = Some a -> _end e = Some b ->
  a <> b ->
  exists s1 s2,
    _get_wire e = Ok [s1; s2] /\
    (QPoint.x a = QPoint.x b \/ QPoint.y a = QPoint.y b ->
       s1 = (QPoint.x a, QPoint.y a, QPoint.x b, QPoint.y b) /\
       s2 = (QPoint.x b, QPoint.y b, QPoint.x b, QPoint.y b) /\
       zero_length s1 = false /\ zero_length s2 = true) /\
    (QPoint.x a <> QPoint.x b -> QPoint.y a <> QPoint.y b ->
       zero_length s1 = false /\ zero_length s2 = false) /\
    (forall e', _state e' = _state e -> _start e' = _start e ->
                _end e' = _end e -> _get_wire e' = Ok [s1; s2]).
Proof.
  intros Hs Ha Hb Hne.
  assert (Hd : QPoint.x a <> QPoint.x b \/ QPoint.y a <> QPoint.y b).
  { destruct a as [ax ay], b as [bx by_]; simpl.
    destruct (decide (ax = bx)) as [->|]; [right | left; assumption].
    intros ->. apply Hne; reflexivity. }
  pose proof (_get_wire_eq e a b Hs Ha Hb) as Hw.
  rewrite (delta_nonzero a b Hne) in Hw.
  destruct (Z.abs (QPoint.x b - QPoint.x a) >? Z.abs (QPoint.y b - QPoint.y a))
    eqn:Hgt.
  - apply Z.gtb_lt in Hgt.
    exists (QPoint.x a, QPoint.y a, QPoint.x b, QPoint.y a),
           (QPoint.x b, QPoint.y a, QPoint.x b, QPoint.y b).
    split; [exact Hw |]. repeat split.
    + destruct H as [H | H]; [exfalso; lia | rewrite H; reflexivity].
    + destruct H as [H | H]; [exfalso; lia | rewrite H; reflexivity].
    + simpl. apply andb_false_iff. left. apply Z.eqb_neq. lia.
    + simpl. destruct H as [H | H]; [exfalso; lia |].
      rewrite H, !Z.eqb_refl. reflexivity.
    + simpl. apply andb_false_iff. left. apply Z.eqb_neq. lia.
    + simpl. apply andb_false_iff. right. apply Z.eqb_neq. assumption.
    + intros e' Hs' Ha' Hb'.
      rewrite (_get_wire_ext e' e Hs' Ha' Hb'). exact Hw.
  - assert (Hle : Z.abs (QPoint.x b - QPoint.x a)
                  <= Z.abs (QPoint.y b - QPoint.y a)).
    { destruct (Z.gtb_spec (Z.abs (QPoint.x b - QPoint.x a))
                           (Z.abs (QPoint.y b - QPoint.y a)));
        [discriminate | lia]. }
    exists (QPoint.x a, QPoint.y a, QPoint.x a, QPoint.y b),
           (QPoint.x a, QPoint.y b, QPoint.x b, QPoint.y b).
    split; [exact Hw |]. repeat split.
    + destruct H as [H | H]; [rewrite H; reflexivity | exfalso; lia].
    + destruct H as [H | H]; [rewrite H; reflexivity | exfalso; lia].
    + simpl. apply andb_false_iff. right. apply Z.eqb_neq. lia.
    + simpl. destruct H as [H | H]; [| exfalso; lia].
      rewrite H, !Z.eqb_refl. reflexivity.
    + simpl. apply andb_false_iff. right. apply Z.eqb_neq. lia.
    + simpl. apply andb_false_iff. left. apply Z.eqb_neq. assumption.
    + intros e' Hs' Ha' Hb'.
      rewrite (_get_wire_ext e' e Hs' Ha' Hb'). exact Hw.
Qed.

Lemma router_two_segments_witness :
  exists s1 s2,
    _get_wire (wire_gesture (QPoint.mk 0 0) (QPoint.mk 3 0) one_gate)
      = Ok [s1; s2] /\
    zero_length s1 = false /\ zero_length s2 = true.
Proof.
  destruct (router_two_segments
              (wire_gesture (QPoint.mk 0 0) (QPoint.mk 3 0) one_gate)
              (QPoint.mk 0 0) (QPoint.mk 3 0)
              eq_refl eq_refl eq_refl ltac:(discriminate))
    as (s1 & s2 & Hw & Haligned & _).
  exists s1, s2. split; [exact Hw |].
  destruct (Haligned (or_intror eq_refl)) as (_ & _ & H1 & H2).
  split; assumption.
Defined.

Example zero_length_gesture_session :
  _mode zero_length_gesture = EDIT /\
  _state zero_length_gesture = Edit EditState.WIRE /\
  _start zero_length_gesture = Some (QPoint.mk 10 10) /\
  _end zero_length_gesture = Some (QPoint.mk 10 10).
Proof. repeat split. Qed.

(** C3, what the code does on a zero-length wire gesture: the call of
    [_get_wire] is a generator object that yields nothing, it is not [None],
    and the release hands it to [change_wires]; the outcome of the release
    is the one of that call of the diagram. *)
Theorem zero_length_wire_is_committed `{F : DiagramFacade} e ep p :
  grid_size e <> 0 -> _mode e = EDIT -> _state e = Edit EditState.WIRE ->
  _start e = Some p -> _end e = Some p ->
  call_generator (_get_wire e) = PyGenerator (Ok []) /\
  call_generator (_get_wire e) <> PyNone /\
  mouseReleaseEvent ep e =
    attempt (change_wires [] (diagram e)) e
      (fun dg => Done (with_state (Edit EditState.NONE) (with_diagram dg e))).
Proof.
  intros Hgs Hm Hs Ha Hb.
  assert (Hw : _get_wire e = Ok []).
  { rewrite (_get_wire_eq e p p Hs Ha Hb).
    replace (p -p p) with QPoint.zero
      by (symmetry; apply QPoint_sub_zero_iff; reflexivity).
    reflexivity. }
  split; [unfold call_generator; rewrite Hw; reflexivity |].
  split; [discriminate |].
  unfold mouseReleaseEvent. rewrite (to_grid_ok _ _ Hgs), Hm, Hs. simpl.
  rewrite Hw. reflexivity.
Qed.

Lemma zero_length_wire_is_committed_witness :
  mouseReleaseEvent (QPoint.mk 161 160) zero_length_gesture
  = attempt (change_wires [] (diagram zero_length_gesture))
      zero_length_gesture
      (fun dg => Done (with_state (Edit EditState.NONE)
                         (with_diagram dg zero_length_gesture))).
Proof.
  apply (zero_length_wire_is_committed zero_length_gesture
           (QPoint.mk 161 160) (QPoint.mk 10 10));
    [discriminate | reflexivity | reflexivity | reflexivity | reflexivity].
Defined.

(** On a diagram that refuses commits the release of the zero-length
    gesture raises: [change_wires] has been called. *)
Example zero_length_release_calls_change_wires :
  @mouseReleaseEvent refusing_commits (QPoint.mk 161 160) zero_length_gesture
  = Raised FacadeError zero_length_gesture.
Proof. reflexivity. Qed.

(** ** Hit tester *)

Lemma pin_point_east el p gs :
  facing el = EAST -> pin_point el p gs = spec_pin_center el p gs.
Proof.
  intros Hf. unfold pin_point, spec_pin_center, QTransform.map. simpl.
  destruct (position el) as [x y]. rewrite Hf. simpl.
  unfold QPoint.scale. simpl. f_equal; lia.
Qed.

(** For a turned element the pin loop looks elsewhere: it turns the
    element's position and leaves the pin's offset as it is. *)
Example pin_point_of_turned_element :
  pin_point (gate_at "not_1" (2, 1) NORTH) (2, 0) 16 = QPoint.mk 48 (-32) /\
  spec_pin_center (gate_at "not_1" (2, 1) NORTH) (2, 0) 16 = QPoint.mk 32 (-16).
Proof. repeat split. Qed.

Lemma element_at_loop_pin h gs pos pre r post :
  (forall r', In r' pre -> QRect.contains (body_rect (h r') gs) pos = false) ->
  near_a_pin (h r) pos gs = true ->
  element_at_loop h gs pos (pre ++ r :: post) = None.
Proof.
  intros Hpre Hpin. induction pre as [|r0 pre IH]; simpl.
  - rewrite Hpin. reflexivity.
  - destruct (near_a_pin (h r0) pos gs); [reflexivity |].
    rewrite (Hpre r0 (or_introl eq_refl)).
    apply IH. intros r' Hin. apply Hpre. right. exact Hin.
Qed.

(** The first element whose body holds the point wins, if neither it nor an
    element before it has a pin near the point. *)
Lemma element_at_loop_body h gs pos pre r post :
  (forall r', In r' pre ->
     near_a_pin (h r') pos gs = false /\
     QRect.contains (body_rect (h r') gs) pos = false) ->
  near_a_pin (h r) pos gs = false ->
  QRect.contains (body_rect (h r) gs) pos = true ->
  element_at_loop h gs pos (pre ++ r :: post) = Some r.
Proof.
  intros Hpre Hpin Hbody. induction pre as [|r0 pre IH]; simpl.
  - rewrite Hpin, Hbody. reflexivity.
  - destruct (Hpre r0 (or_introl eq_refl)) as [-> ->].
    apply IH. intros r' Hin. apply Hpre. right. exact Hin.
Qed.

(** C1, the claim as stated fails: the point (16,16) is the transformed
    centre of the input pin of the second gate, and the hit tester returns
    the first gate, whose body holds the point and which comes first in the
    diagram. *)
Lemma pin_under_earlier_body :
  In 2%positive (elements (diagram two_gates)) /\
  In ((-2, 0), "in0"%string) (all_inputs (objects two_gates 2%positive)) /\
  spec_pin_center (objects two_gates 2%positive) (-2, 0) 16 = QPoint.mk 16 16 /\
  within_half_grid
    (spec_pin_center (objects two_gates 2%positive) (-2, 0) 16)
    (QPoint.mk 16 16) (grid_size two_gates) = true /\
  element_at_position two_gates (QPoint.mk 16 16) = Some 1%positive.
Proof. repeat split; simpl; auto. Qed.

Lemma near_a_pin_east el pos gs :
  facing el = EAST ->
  near_a_pin el pos gs
  = existsb (fun pn =>
               within_half_grid (spec_pin_center el (fst pn) gs) pos gs)
            (all_inputs el ++ all_outputs el).
Proof.
  intros Hf. unfold near_a_pin.
  induction (all_inputs el ++ all_outputs el) as [|pn pins IH]; simpl;
    [reflexivity |].
  rewrite (pin_point_east _ _ _ Hf), IH. reflexivity.
Qed.

Lemma no_pin_near el pos gs :
  facing el = EAST ->
  (forall pn, In pn (all_inputs el ++ all_outputs el) ->
     within_half_grid (spec_pin_center el (fst pn) gs) pos gs = false) ->
  near_a_pin el pos gs = false.
Proof.
  intros Hf Hfar. rewrite (near_a_pin_east _ _ _ Hf).
  destruct (existsb _ _) eqn:Hex; [| reflexivity].
  apply existsb_exists in Hex as (pn & Hin & Hnear).
  rewrite (Hfar pn Hin) in Hnear. discriminate.
Qed.

(** C1, amended: let an element face east and let no element before it in
    the diagram's order have a body rect that holds the point.  If the
    point lies within [gridSize / 2] of the transformed centre of one of
    its pins, the hit tester returns none, whatever bodies hold the point:
    the pin check of an element comes before its own body test and before
    the tests of all later elements.  If instead its body holds the point
    and neither it nor any element before it, all facing east, has a pin
    within [gridSize / 2] of the point, it is the element returned,
    whatever pins of later elements are near the point. *)
Theorem pin_priority e pos pre r post :
  elements (diagram e) = pre ++ r :: post ->
  facing (objects e r) = EAST ->
  (forall r', In r' pre ->
     QRect.contains (body_rect (objects e r') (grid_size e)) pos = false) ->
  ((exists pn,
      In pn (all_inputs (objects e r) ++ all_outputs (objects e r)) /\
      within_half_grid (spec_pin_center (objects e r) (fst pn) (grid_size e))
                       pos (grid_size e) = true) ->
   element_at_position e pos = None) /\
  ((forall r', In r' (pre ++ [r]) ->
      facing (objects e r') = EAST /\
      forall pn,
        In pn (all_inputs (objects e r') ++ all_outputs (objects e r')) ->
        within_half_grid
          (spec_pin_center (objects e r') (fst pn) (grid_size e))
          pos (grid_size e) = false) ->
   QRect.contains (body_rect (objects e r) (grid_size e)) pos = true ->
   element_at_position e pos = Some r).
Proof.
  intros Hels Hf Hpre. unfold element_at_position. rewrite Hels. split.
  - intros (pn & Hin & Hnear).
    apply element_at_loop_pin; [exact Hpre |].
    unfold near_a_pin. apply existsb_exists. exists pn.
    split; [exact Hin |]. rewrite (pin_point_east _ _ _ Hf). exact Hnear.
  - intros Hfar Hbody. apply element_at_loop_body; [| | exact Hbody].
    + intros r' Hin. split; [| apply Hpre; exact Hin].
      destruct (Hfar r' (in_or_app _ _ _ (or_introl Hin))) as [Hf' Hfar'].
      apply no_pin_near; assumption.
    + destruct (Hfar r (in_or_app pre [r] r (or_intror (in_eq r []))))
        as [_ Hfar'].
      apply no_pin_near; assumption.
Qed.

(** In the row of three gates, (80,16) is the output pin of the second gate
    and lies on the body of the third: none is returned, not the third
    gate.  (20,20) is within half a cell of the input pin of the second
    gate and lies on the body of the first, which has no pin near: the
    first gate is returned. *)
Lemma pin_priority_witness :
  QRect.contains (body_rect (objects gate_row 3%positive) 16)
    (QPoint.mk 80 16) = true /\
  element_at_position gate_row (QPoint.mk 80 16) = None /\
  within_half_grid (spec_pin_center (objects gate_row 2%positive) (-2, 0) 16)
    (QPoint.mk 20 20) 16 = true /\
  element_at_position gate_row (QPoint.mk 20 20) = Some 1%positive.
Proof.
  split; [reflexivity |]. split; [| split; [reflexivity |]].
  - apply (proj1 (pin_priority gate_row (QPoint.mk 80 16) [1%positive]
                    2%positive [3%positive] eq_refl eq_refl
                    ltac:(intros r' [<- | []]; reflexivity))).
    exists ((2, 0), "out"%string). split; [| reflexivity].
    simpl. right. left. reflexivity.
  - apply (proj2 (pin_priority gate_row (QPoint.mk 20 20) []
                    1%positive [2%positive; 3%positive] eq_refl eq_refl
                    ltac:(intros r' [])));
      [| reflexivity].
    intros r' [<- | []]. split; [reflexivity |].
    intros pn [<- | [<- | []]]; reflexivity.
Defined.

(** ** Crossing toggle *)

Lemma all_connected_count n :
  all_connected n = true <-> connection_count n = 4%nat.
Proof.
  unfold all_connected, connection_count.
  destruct (connections n) as [[[[] []] []] []]; simpl; split;
    (reflexivity || discriminate).
Qed.

Lemma release_empty_click `{F : DiagramFacade} e ep p :
  _mode e = EDIT -> _state e = Edit EditState.EMPTY_CLICK ->
  to_grid (ep -p _translation e) (grid_size e) = Ok p ->
  exists e',
    mouseReleaseEvent ep e = Done e' /\
    _state e' = Edit EditState.NONE /\
    elements (diagram e') = elements (diagram e) /\
    wires (diagram e') = toggled_at p (wires (diagram e)).
Proof.
  intros Hm Hs Hp. unfold mouseReleaseEvent, toggled_at.
  rewrite Hp, Hm, Hs. simpl.
  destruct (wires (diagram e) !! (QPoint.x p, QPoint.y p)) as [node|];
    [destruct (all_connected node) |]; eexists; repeat split.
Qed.

Lemma toggled_at_lookup p w pt n :
  w !! pt = Some n ->
  exists n',
    toggled_at p w !! pt = Some n' /\
    connections n' = connections n /\
    (overlap n' <> overlap n <->
     pt = (QPoint.x p, QPoint.y p) /\ all_connected n = true).
Proof.
  intros Hn. unfold toggled_at.
  destruct (decide (pt = (QPoint.x p, QPoint.y p))) as [->|Hne].
  - rewrite Hn. destruct (all_connected n) eqn:Hall.
    + exists (toggle_overlap n). rewrite lookup_insert_eq.
      split; [reflexivity |]. split; [reflexivity |].
      split; [intros _; split; reflexivity |].
      intros _. simpl. destruct (overlap n); discriminate.
    + exists n. split; [exact Hn |]. split; [reflexivity |].
      split; [intros H; contradiction | intros [_ H]; discriminate].
  - exists n. split.
    + destruct (w !! (QPoint.x p, QPoint.y p)) as [node|]; [| exact Hn].
      destruct (all_connected node); [| exact Hn].
      rewrite lookup_insert_ne by congruence. exact Hn.
    + split; [reflexivity |].
      split; [intros H; contradiction | intros [H _]; contradiction].
Qed.

Lemma toggled_at_none p w pt :
  w !! pt = None -> toggled_at p w !! pt = None.
Proof.
  intros Hn. unfold toggled_at.
  destruct (w !! (QPoint.x p, QPoint.y p)) as [node|] eqn:Hp; [| exact Hn].
  destruct (all_connected node); [| exact Hn].
  rewrite lookup_insert_ne; [exact Hn |]. intros <-. congruence.
Qed.

(** C7: the release of an empty click at grid point [p] flips the overlap
    flag of a node exactly if the node is the one at [p] and all 4 of its
    connections are set; it adds no node and changes no connection; a node
    with 3 or fewer connections keeps its overlap value; and a network in
    which overlap is set on 4-way nodes only stays such a network. *)
Theorem crossing_toggle `{F : DiagramFacade} e ep p :
  _mode e = EDIT -> _state e = Edit EditState.EMPTY_CLICK ->
  to_grid (ep -p _translation e) (grid_size e) = Ok p ->
  exists e',
    mouseReleaseEvent ep e = Done e' /\
    _state e' = Edit EditState.NONE /\
    (forall pt n, wires (diagram e) !! pt = Some n ->
       exists n',
         wires (diagram e') !! pt = Some n' /\
         connections n' = connections n /\
         (overlap n' <> overlap n <->
          pt = (QPoint.x p, QPoint.y p) /\ all_connected n = true)) /\
    (forall pt, wires (diagram e) !! pt = None ->
       wires (diagram e') !! pt = None) /\
    (forall pt n, wires (diagram e) !! pt = Some n ->
       (connection_count n <= 3)%nat ->
       wires (diagram e') !! pt = Some n) /\
    (overlap_only_on_crossings (wires (diagram e)) ->
     overlap_only_on_crossings (wires (diagram e'))).
Proof.
  intros Hm Hs Hp.
  destruct (release_empty_click e ep p Hm Hs Hp) as (e' & Hr & Hs' & _ & Hw).
  exists e'. split; [exact Hr |]. split; [exact Hs' |]. rewrite Hw.
  split; [intros pt n; apply toggled_at_lookup |].
  split; [intros pt; apply toggled_at_none |].
  split.
  - intros pt n Hn Hcount.
    destruct (toggled_at_lookup p _ pt n Hn) as (n' & Hn' & Hc & Hiff).
    rewrite Hn'. f_equal.
    assert (Hsame : overlap n' = overlap n).
    { destruct (bool_decide (overlap n' = overlap n)) eqn:Hd.
      - apply bool_decide_eq_true in Hd. exact Hd.
      - apply bool_decide_eq_false in Hd. apply Hiff in Hd as [_ Hall].
        apply all_connected_count in Hall. lia. }
    destruct n' as [c' o'], n as [c o]. simpl in *. congruence.
  - intros Hinv pt n' Hn' Hov.
    destruct (wires (diagram e) !! pt) as [n|] eqn:Hn.
    + destruct (toggled_at_lookup p _ pt n Hn) as (n2 & Hn2 & Hc & Hiff).
      rewrite Hn' in Hn2. injection Hn2 as <-.
      destruct (bool_decide (overlap n' = overlap n)) eqn:Hd.
      * apply bool_decide_eq_true in Hd.
        unfold connection_count. rewrite Hc.
        apply (Hinv pt n Hn). congruence.
      * apply bool_decide_eq_false in Hd. apply Hiff in Hd as [_ Hall].
        apply all_connected_count in Hall.
        unfold connection_count in *. rewrite Hc. exact Hall.
    + rewrite (toggled_at_none p _ pt Hn) in Hn'. discriminate.
Qed.

Example pressed_crossing_network :
  _state pressed_crossing = Edit EditState.EMPTY_CLICK /\
  wires (diagram pressed_crossing) !! (5, 5)
    = Some (mkWireNode (true, true, true, true) false) /\
  wires (diagram pressed_crossing) !! (4, 5)
    = Some (mkWireNode (true, false, false, false) false).
Proof. repeat split. Qed.

Lemma crossing_toggle_witness :
  exists e' n',
    mouseReleaseEvent (QPoint.mk 80 80) pressed_crossing = Done e' /\
    wires (diagram e') !! (5, 5) = Some n' /\ overlap n' = true /\
    wires (diagram e') !! (4, 5)
      = Some (mkWireNode (true, false, false, false) false).
Proof.
  destruct (crossing_toggle pressed_crossing (QPoint.mk 80 80) (QPoint.mk 5 5)
              eq_refl eq_refl eq_refl)
    as (e' & Hr & _ & Hflip & _ & Hkeep & _).
  destruct (Hflip (5, 5) (mkWireNode (true, true, true, true) false) eq_refl)
    as (n' & Hn' & _ & Hiff).
  exists e', n'. split; [exact Hr |]. split; [exact Hn' |]. split.
  - destruct (overlap n'); [reflexivity |].
    exfalso. assert (H : false <> false) by (apply Hiff; split; reflexivity).
    apply H. reflexivity.
  - apply Hkeep; [reflexivity | unfold connection_count; simpl; lia].
Defined.

(** ** Dragging *)

Lemma move_while_dragging e ep :
  grid_size e <> 0 -> _mode e = EDIT ->
  _state e = Edit EditState.ELEMENT_CLICK \/ _state e = Edit EditState.DRAG ->
  exists e',
    mouseMoveEvent ep e = Done e' /\
    _end e' = Some (grid_point (_translation e) (grid_size e) ep) /\
    objects e' = objects e /\ diagram e' = diagram e /\
    _start e' = _start e /\ _selected_element e' = _selected_element e /\
    _state e' = Edit EditState.DRAG /\ _mode e' = EDIT /\
    grid_size e' = grid_size e /\ _translation e' = _translation e.
Proof.
  intros Hgs Hm Hs. unfold mouseMoveEvent.
  rewrite !(to_grid_ok _ _ Hgs). simpl. rewrite Hm.
  destruct Hs as [Hs | Hs]; rewrite Hs; eexists; repeat split; assumption.
Qed.

Lemma release_drag `{F : DiagramFacade} e ep r s en :
  grid_size e <> 0 -> _mode e = EDIT -> _state e = Edit EditState.DRAG ->
  _selected_element e = Some r -> _start e = Some s -> _end e = Some en ->
  exists e',
    mouseReleaseEvent ep e = Done e' /\
    _state e' = Edit EditState.NONE /\
    diagram e' = diagram e /\
    position (objects e' r)
      = (fst (position (objects e r)) + (QPoint.x en - QPoint.x s),
         snd (position (objects e r)) + (QPoint.y en - QPoint.y s)) /\
    (forall r', r' <> r -> objects e' r' = objects e r').
Proof.
  intros Hgs Hm Hs Hsel Hst Hen. unfold mouseReleaseEvent, anchor_delta.
  rewrite (to_grid_ok _ _ Hgs), Hm, Hs, Hsel, Hst, Hen. simpl.
  destruct (position (objects e r)) as [x y] eqn:Hpos. simpl.
  eexists. split; [reflexivity |]. simpl. unfold store_position.
  repeat split.
  - rewrite Pos.eqb_refl. reflexivity.
  - intros r' Hne. apply Pos.eqb_neq in Hne. rewrite Hne. reflexivity.
Qed.

Lemma running_end_cons tr gs en m rest :
  running_end tr gs en (m :: rest)
  = running_end tr gs (grid_point tr gs m) rest.
Proof.
  unfold running_end. rewrite last_cons.
  destruct (last rest); reflexivity.
Qed.

Lemma moves_while_dragging `{F : DiagramFacade} mvs : forall e en,
  grid_size e <> 0 -> _mode e = EDIT ->
  _state e = Edit EditState.DRAG \/
  (_state e = Edit EditState.ELEMENT_CLICK /\ mvs <> []) ->
  _end e = Some en ->
  let e1 := run (map Move mvs) e in
  _end e1 = Some (running_end (_translation e) (grid_size e) en mvs) /\
  objects e1 = objects e /\ diagram e1 = diagram e /\
  _start e1 = _start e /\ _selected_element e1 = _selected_element e /\
  _state e1 = Edit EditState.DRAG /\ _mode e1 = EDIT /\
  grid_size e1 = grid_size e /\ _translation e1 = _translation e.
Proof.
  induction mvs as [|m rest IH]; intros e en Hgs Hm Hs Hen; simpl.
  - destruct Hs as [Hs | [_ Hne]]; [| contradiction].
    repeat split; assumption.
  - assert (Hs0 : _state e = Edit EditState.ELEMENT_CLICK \/
                  _state e = Edit EditState.DRAG)
      by (destruct Hs as [Hs | [Hs _]]; [right | left]; exact Hs).
    destruct (move_while_dragging e m Hgs Hm Hs0)
      as (e' & Hmv & Hen' & Hob & Hdg & Hst & Hsel & Hs' & Hm' & Hgs' & Htr).
    rewrite Hmv. simpl.
    assert (Hgs1 : grid_size e' <> 0) by (rewrite Hgs'; exact Hgs).
    destruct (IH e' _ Hgs1 Hm' (or_introl Hs') Hen')
      as (Hen1 & Hob1 & Hdg1 & Hst1 & Hsel1 & Hs1 & Hm1 & Hg1 & Htr1).
    rewrite Hen1, Hob1, Hdg1, Hst1, Hsel1, Hs1, Hm1, Hg1, Htr1.
    rewrite Hgs', Htr. repeat split; try assumption.
    rewrite running_end_cons. reflexivity.
Qed.

(** C9: during a drag the move events only update the running end anchor:
    the objects, hence the committed position of the dragged element, the
    diagram and the start anchor stay as they are; the release then adds
    [end - start], the difference of the last running end and the start
    anchor, to the element's position, once, whatever the number of moves,
    and leaves the other elements alone.  The drag is under way, or it
    starts with the first of the moves after the press on the element. *)
Theorem drag_commit `{F : DiagramFacade} e r s en (mvs : list QPoint) ep :
  grid_size e <> 0 -> _mode e = EDIT ->
  _state e = Edit EditState.DRAG \/
  (_state e = Edit EditState.ELEMENT_CLICK /\ mvs <> []) ->
  _selected_element e = Some r -> _start e = Some s -> _end e = Some en ->
  let e1 := run (map Move mvs) e in
  let e2 := run [Release ep] e1 in
  let en' := running_end (_translation e) (grid_size e) en mvs in
  objects e1 = objects e /\ diagram e1 = diagram e /\
  _start e1 = Some s /\ _end e1 = Some en' /\
  _state e1 = Edit EditState.DRAG /\
  position (objects e2 r)
    = (fst (position (objects e r)) + (QPoint.x en' - QPoint.x s),
       snd (position (objects e r)) + (QPoint.y en' - QPoint.y s)) /\
  (forall r', r' <> r -> objects e2 r' = objects e r') /\
  _state e2 = Edit EditState.NONE.
Proof.
  intros Hgs Hm Hs Hsel Hst Hen e1 e2 en'.
  destruct (moves_while_dragging mvs e en Hgs Hm Hs Hen)
    as (Hen1 & Hob1 & Hdg1 & Hst1 & Hsel1 & Hs1 & Hm1 & Hg1 & Htr1).
  fold e1 in Hen1, Hob1, Hdg1, Hst1, Hsel1, Hs1, Hm1, Hg1, Htr1.
  assert (Hgs1 : grid_size e1 <> 0) by (rewrite Hg1; exact Hgs).
  rewrite Hst in Hst1. rewrite Hsel in Hsel1.
  destruct (release_drag e1 ep r s en' Hgs1 Hm1 Hs1 Hsel1 Hst1 Hen1)
    as (e' & Hr & Hs' & _ & Hpos & Hother).
  assert (He2 : e2 = e') by (unfold e2; simpl; rewrite Hr; reflexivity).
  rewrite He2. rewrite Hob1 in Hpos, Hother.
  repeat split; assumption.
Qed.

Lemma drag_commit_witness :
  _state pressed_gate = Edit EditState.ELEMENT_CLICK /\
  _start pressed_gate = Some (QPoint.mk 2 2) /\
  position (objects pressed_gate 1%positive) = (2, 2) /\
  position
    (objects
       (run [Release (QPoint.mk 80 64)]
          (run (map Move [QPoint.mk 41 35; QPoint.mk 60 50; QPoint.mk 90 70;
                          QPoint.mk 80 64])
               pressed_gate)) 1%positive)
  = (5, 4).
Proof.
  split; [reflexivity |]. split; [reflexivity |]. split; [reflexivity |].
  assert (Hgs : grid_size pressed_gate <> 0) by (vm_compute; discriminate).
  assert (Hm : _mode pressed_gate = EDIT) by reflexivity.
  assert (Hs : _state pressed_gate = Edit EditState.DRAG \/
     (_state pressed_gate = Edit EditState.ELEMENT_CLICK /\
      [QPoint.mk 41 35; QPoint.mk 60 50; QPoint.mk 90 70; QPoint.mk 80 64] <> []))
    by (right; split; [reflexivity | discriminate]).
  assert (Hsel : _selected_element pressed_gate = Some 1%positive) by reflexivity.
  assert (Hst : _start pressed_gate = Some (QPoint.mk 2 2)) by reflexivity.
  assert (Hen : _end pressed_gate = Some (QPoint.mk 2 2)) by reflexivity.
  destruct (drag_commit pressed_gate 1%positive (QPoint.mk 2 2)
              (QPoint.mk 2 2)
              [QPoint.mk 41 35; QPoint.mk 60 50; QPoint.mk 90 70;
               QPoint.mk 80 64]
              (QPoint.mk 80 64) Hgs Hm Hs Hsel Hst Hen)
    as (_ & _ & _ & _ & _ & Hpos & _).
  rewrite Hpos. reflexivity.
Defined.

(** ** Panning *)

Lemma translation_changes_on_pan_release `{F : DiagramFacade} e ev :
  _translation (session (handle ev e)) <> _translation e ->
  exists ep, ev = Release ep /\ _mode e = VIEW /\
             _state e = View ViewState.MOVE.
Proof.
  intros Hne. destruct ev as [pos | pos | pos]; simpl in Hne.
  - exfalso. apply Hne. unfold mousePressEvent, attempt.
    destruct (to_grid _ _); [| reflexivity].
    destruct (_mode e); [| reflexivity].
    destruct (_state e) as [[]|]; try reflexivity;
      destruct (element_at_position e _); try reflexivity.
    destruct (is_same _ _); reflexivity.
  - exfalso. apply Hne. unfold mouseMoveEvent, attempt.
    destruct (to_grid (pos -p _) _); [| reflexivity].
    destruct (to_grid pos _); [| reflexivity]. simpl.
    destruct (_mode e); destruct (_state e) as [[]|[]]; try reflexivity.
    destruct (_placing_element e); reflexivity.
  - exists pos. split; [reflexivity |].
    unfold mouseReleaseEvent, attempt in Hne.
    destruct (to_grid _ _); [| contradiction].
    destruct (_mode e);
      [exfalso | destruct (_state e) as [[]|[]]; try contradiction; auto].
    apply Hne.
    destruct (_state e) as [[]|]; try reflexivity; simpl.
    + destruct (wires (diagram e) !! _) as [node|]; [| reflexivity].
      destruct (all_connected node); reflexivity.
    + unfold call_generator. destruct (_get_wire e); [| reflexivity].
      simpl. destruct (change_wires _ _); reflexivity.
    + destruct (_selected_element e); [| reflexivity]. simpl.
      destruct (position _). unfold attempt.
      destruct (anchor_delta e); reflexivity.
    + destruct (add_element _ _); reflexivity.
Qed.

(** C10: in VIEW mode a press sets the state to CLICK and both anchors to
    the pixel point minus the translation, whatever the view state was and
    without touching the translation; the session after the press does not
    depend on the anchors of a pan that was under way, so a release right
    after it leaves the translation as it was; and a pointer event changes
    the translation only if it is a release in state MOVE. *)
Theorem view_press_restarts `{F : DiagramFacade} e pos :
  grid_size e <> 0 -> _mode e = VIEW ->
  mousePressEvent pos e =
    Done (with_end (Some (pos -p _translation e))
            (with_start (Some (pos -p _translation e))
               (with_state (View ViewState.CLICK) e))) /\
  _translation (session (mousePressEvent pos e)) = _translation e /\
  (forall s t,
     mousePressEvent pos (with_end t (with_start s e))
     = mousePressEvent pos e) /\
  (forall ep, _translation (run [Press pos; Release ep] e) = _translation e) /\
  (forall e0 ev,
     _translation (session (handle ev e0)) <> _translation e0 ->
     exists ep, ev = Release ep /\ _mode e0 = VIEW /\
                _state e0 = View ViewState.MOVE).
Proof.
  intros Hgs Hm.
  assert (Hpress : mousePressEvent pos e =
    Done (with_end (Some (pos -p _translation e))
            (with_start (Some (pos -p _translation e))
               (with_state (View ViewState.CLICK) e)))).
  { unfold mousePressEvent. rewrite (to_grid_ok _ _ Hgs), Hm. reflexivity. }
  split; [exact Hpress |].
  split; [rewrite Hpress; reflexivity |].
  split.
  - intros s t. rewrite Hpress. unfold mousePressEvent. simpl.
    rewrite (to_grid_ok _ _ Hgs), Hm. reflexivity.
  - split; [| intros e0 ev; apply translation_changes_on_pan_release].
    intros ep. simpl. rewrite Hpress. simpl.
    unfold mouseReleaseEvent. simpl.
    rewrite (to_grid_ok _ _ Hgs), Hm. reflexivity.
Qed.

Lemma view_press_restarts_witness :
  _state panning = View ViewState.MOVE /\
  _start panning = Some (QPoint.mk 100 50) /\
  _end panning = Some (QPoint.mk 140 70) /\
  _translation (run [Release (QPoint.mk 140 70)] panning) = QPoint.mk 40 20 /\
  _translation
    (run [Press (QPoint.mk 10 10); Release (QPoint.mk 10 10)] panning)
  = QPoint.mk 0 0.
Proof.
  split; [reflexivity |]. split; [reflexivity |]. split; [reflexivity |].
  split; [reflexivity |].
  destruct (view_press_restarts panning (QPoint.mk 10 10)
              ltac:(discriminate) eq_refl) as (_ & _ & _ & H & _).
  rewrite H. reflexivity.
Defined.

(** ** Selection *)

Example selected_gate_session :
  _state selected_gate = Edit EditState.SELECT /\
  _selected_element selected_gate = Some 1%positive /\
  element_selected selected_gate = [Some 1%positive].
Proof. repeat split. Qed.

Example dropped_gate_session :
  _mode dropped_gate = EDIT /\
  _state dropped_gate = Edit EditState.NONE /\
  _selected_element dropped_gate = Some 1%positive /\
  element_selected dropped_gate = [Some 1%positive] /\
  position (objects dropped_gate 1%positive) = (3, 2) /\
  elements (diagram dropped_gate) = [1%positive].
Proof. repeat split. Qed.

(** C5, the claim as stated fails: after a drag the dropped gate is still
    the selected element, and a press on it emits the notification again,
    with the same element. *)
Lemma press_after_drag_emits_again :
  _selected_element dropped_gate = Some 1%positive /\
  element_at_position dropped_gate
    (QPoint.mk 48 32 -p _translation dropped_gate) = Some 1%positive /\
  element_selected dropped_gate = [Some 1%positive] /\
  element_selected (session (mousePressEvent (QPoint.mk 48 32) dropped_gate))
    = [Some 1%positive; Some 1%positive].
Proof. repeat split. Qed.

(** C5, amended: in state SELECT a press on the element that is already
    the selected element emits nothing, and a press on another element
    emits the notification once, with that element, and makes it the
    selected element; in state NONE a press on an element emits the
    notification once, whatever [_selected_element] holds. *)
Theorem selection_notification e pos r :
  grid_size e <> 0 -> _mode e = EDIT ->
  element_at_position e (pos -p _translation e) = Some r ->
  exists e',
    mousePressEvent pos e = Done e' /\
    (_state e = Edit EditState.SELECT -> _selected_element e = Some r ->
       element_selected e' = element_selected e /\
       _selected_element e' = Some r /\
       _state e' = Edit EditState.ELEMENT_CLICK) /\
    (_state e = Edit EditState.SELECT -> _selected_element e <> Some r ->
       element_selected e' = element_selected e ++ [Some r] /\
       _selected_element e' = Some r /\
       _state e' = Edit EditState.ELEMENT_CLICK) /\
    (_state e = Edit EditState.NONE ->
       element_selected e' = element_selected e ++ [Some r] /\
       _selected_element e' = Some r /\
       _state e' = Edit EditState.ELEMENT_CLICK).
Proof.
  intros Hgs Hm Hhit. unfold mousePressEvent.
  rewrite (to_grid_ok _ _ Hgs), Hm, Hhit. simpl.
  destruct (_state e) as [[]|] eqn:Hs; eexists;
    (split; [reflexivity |]); (split; [| split]);
    try (intros; discriminate).
  - intros _. repeat split.
  - intros _ Hsel. rewrite (proj2 (is_same_true _ _) Hsel).
    repeat split. exact Hsel.
  - intros _ Hsel. rewrite (proj2 (is_same_false _ _) Hsel).
    repeat split.
Qed.

Lemma selection_notification_witness :
  element_selected
    (session (mousePressEvent (QPoint.mk 32 32) selected_gate))
  = [Some 1%positive].
Proof.
  destruct (selection_notification selected_gate (QPoint.mk 32 32) 1%positive
              ltac:(discriminate) eq_refl eq_refl)
    as (e' & Hpress & Hsame & _).
  rewrite Hpress. simpl.
  destruct (Hsame eq_refl eq_refl) as (Hlog & _).
  rewrite Hlog. reflexivity.
Defined.

(** C6, what the code does on a press on an empty point in state SELECT: the
    state becomes EMPTY_CLICK, both anchors become the pressed grid point
    and the notification is emitted once, with none; [_selected_element]
    keeps the element, where [unselect] would clear it. *)
Theorem press_empty_keeps_selected_element e pos :
  grid_size e <> 0 -> _mode e = EDIT -> _state e = Edit EditState.SELECT ->
  element_at_position e (pos -p _translation e) = None ->
  exists e',
    mousePressEvent pos e = Done e' /\
    _state e' = Edit EditState.EMPTY_CLICK /\
    element_selected e' = element_selected e ++ [None] /\
    _start e' = Some (grid_point (_translation e) (grid_size e) pos) /\
    _end e' = Some (grid_point (_translation e) (grid_size e) pos) /\
    _selected_element e' = _selected_element e /\
    (forall r, _selected_element e = Some r ->
       _selected_element e' <> _selected_element (unselect e)).
Proof.
  intros Hgs Hm Hs Hhit. unfold mousePressEvent.
  rewrite (to_grid_ok _ _ Hgs), Hm, Hs, Hhit. simpl.
  eexists. repeat split.
  simpl. intros r Hsel. rewrite Hsel. unfold unselect. rewrite Hsel.
  discriminate.
Qed.

Lemma press_empty_keeps_selected_element_witness :
  element_at_position selected_gate (QPoint.mk 200 200) = None /\
  exists e',
    mousePressEvent (QPoint.mk 200 200) selected_gate = Done e' /\
    _state e' = Edit EditState.EMPTY_CLICK /\
    element_selected e' = [Some 1%positive; None] /\
    _selected_element e' = Some 1%positive.
Proof.
  split; [reflexivity |].
  destruct (press_empty_keeps_selected_element selected_gate
              (QPoint.mk 200 200) ltac:(discriminate) eq_refl eq_refl eq_refl)
    as (e' & Hpress & Hs & Hlog & _ & _ & Hsel & _).
  exists e'. repeat split; assumption.
Defined.

(** After the deselecting click the listeners have been told that nothing
    is selected and no element is framed, yet the delete action removes the
    gate. *)
Example delete_after_deselect :
  _state deselected_gate = Edit EditState.NONE /\
  element_selected deselected_gate = [Some 1%positive; None] /\
  _selected_element deselected_gate = Some 1%positive /\
  elements (diagram deselected_gate) = [1%positive] /\
  elements (diagram (session (delete_selected_element deselected_gate))) = [].
Proof. repeat split. Qed.

(** ** Deletion *)

(** C4, the claim as stated fails: after the drag the state is NONE, not
    SELECT; the delete action still removes the gate from the diagram, and
    it neither clears the selection nor emits a notification. *)
Lemma delete_outside_select_removes :
  _state dropped_gate = Edit EditState.NONE /\
  _selected_element dropped_gate = Some 1%positive /\
  elements (diagram dropped_gate) = [1%positive] /\
  exists e',
    delete_selected_element dropped_gate = Done e' /\
    elements (diagram e') = [] /\
    _selected_element e' = Some 1%positive /\
    element_selected e' = element_selected dropped_gate.
Proof.
  split; [reflexivity |]. split; [reflexivity |]. split; [reflexivity |].
  eexists. split; [reflexivity |]. repeat split.
Qed.

(** C4, amended: the delete action hands [_selected_element], none
    included, to the diagram's remove operation in every edit state; if
    that operation raises, the action raises the same and the session is
    untouched.  Otherwise the diagram becomes what the operation returns,
    and: in a state other than SELECT nothing else happens, so with no
    selected element the session state is unchanged and nothing is
    notified, and a selected element stays selected; in state SELECT with a
    selected element the selection is cleared, the state becomes NONE and
    none is notified once; in state SELECT with no selected element the
    state becomes NONE and nothing is notified. *)
Theorem delete_selected `{F : DiagramFacade} e :
  (_state e <> Edit EditState.SELECT ->
     delete_selected_element e =
       attempt (remove_element (_selected_element e) (diagram e)) e
         (fun dg => Done (with_diagram dg e))) /\
  (forall r,
     _state e = Edit EditState.SELECT -> _selected_element e = Some r ->
     delete_selected_element e =
       attempt (remove_element (Some r) (diagram e)) e
         (fun dg =>
            Done (emit None
                    (with_state (Edit EditState.NONE)
                       (with_selected_element None (with_diagram dg e)))))) /\
  (_state e = Edit EditState.SELECT -> _selected_element e = None ->
     delete_selected_element e =
       attempt (remove_element None (diagram e)) e
         (fun dg =>
            Done (with_state (Edit EditState.NONE)
                    (with_selected_element None (with_diagram dg e))))).
Proof.
  unfold delete_selected_element, delete_element, attempt.
  split; [| split].
  - intros Hs.
    destruct (remove_element _ (diagram e)); [| reflexivity]. simpl.
    destruct (_state e) as [[]|]; try reflexivity. contradiction.
  - intros r Hs Hsel. rewrite Hsel.
    destruct (remove_element (Some r) (diagram e)); [| reflexivity]. simpl.
    rewrite Hs, Hsel. simpl. rewrite Pos.eqb_refl.
    unfold unselect. simpl. rewrite Hsel. reflexivity.
  - intros Hs Hsel. rewrite Hsel.
    destruct (remove_element None (diagram e)); [| reflexivity]. simpl.
    rewrite Hs, Hsel. simpl.
    unfold unselect. simpl. rewrite Hsel. reflexivity.
Qed.

(** The three cases: the gate deselected by a click on an empty point, in
    state NONE; the selected gate; and a session left in state SELECT with
    nothing selected, by the release of a placement on which [add_element]
    raised. *)
Lemma delete_selected_witness :
  (exists e',
     delete_selected_element deselected_gate = Done e' /\
     elements (diagram e') = [] /\
     _selected_element e' = Some 1%positive /\
     _state e' = Edit EditState.NONE /\
     element_selected e' = element_selected deselected_gate) /\
  (exists e',
     delete_selected_element selected_gate = Done e' /\
     elements (diagram e') = [] /\
     _selected_element e' = None /\
     _state e' = Edit EditState.NONE /\
     element_selected e' = [Some 1%positive; None]) /\
  (exists e',
     delete_selected_element
       (session (mouseReleaseEvent (QPoint.mk 0 0)
                   (start_placing None one_gate))) = Done e' /\
     elements (diagram e') = [1%positive] /\
     _state e' = Edit EditState.NONE /\
     element_selected e' = []).
Proof.
  split; [| split].
  - destruct (delete_selected deselected_gate) as (Hother & _ & _).
    rewrite (Hother ltac:(discriminate)).
    eexists. split; [reflexivity |]. repeat split.
  - destruct (delete_selected selected_gate) as (_ & Hsel & _).
    rewrite (Hsel 1%positive eq_refl eq_refl).
    eexists. split; [reflexivity |]. repeat split.
  - destruct (delete_selected
                (session (mouseReleaseEvent (QPoint.mk 0 0)
                            (start_placing None one_gate))))
      as (_ & _ & Hnone).
    rewrite (Hnone eq_refl eq_refl).
    eexists. split; [reflexivity |]. repeat split.
Defined.

(** * Further properties *)

(** ** Hit tester *)

(** X1: the hit tester returns an element exactly if it is the first one in
    the diagram's order whose body holds the point, and neither it nor any
    element before it has a pin within half a grid cell of the point. *)
Theorem hit_is_first_match e pos r :
  element_at_position e pos = Some r <->
  exists pre post,
    elements (diagram e) = pre ++ r :: post /\
    (forall r', In r' pre ->
       near_a_pin (objects e r') pos (grid_size e) = false /\
       QRect.contains (body_rect (objects e r') (grid_size e)) pos = false) /\
    near_a_pin (objects e r) pos (grid_size e) = false /\
    QRect.contains (body_rect (objects e r) (grid_size e)) pos = true.
Proof.
  unfold element_at_position. split.
  - induction (elements (diagram e)) as [|r0 els IH]; simpl; [discriminate |].
    destruct (near_a_pin (objects e r0) pos (grid_size e)) eqn:Hpin;
      [discriminate |].
    destruct (QRect.contains (body_rect (objects e r0) (grid_size e)) pos)
      eqn:Hbody.
    + intros [= ->]. exists [], els.
      split; [reflexivity |]. split; [intros r' [] |].
      split; assumption.
    + intros Hrest. destruct (IH Hrest) as (pre & post & -> & Hpre & H1 & H2).
      exists (r0 :: pre), post.
      split; [reflexivity |]. split; [| split; assumption].
      intros r' [<- | Hin]; [split; assumption | apply Hpre; exact Hin].
  - intros (pre & post & -> & Hpre & Hpin & Hbody).
    apply element_at_loop_body; assumption.
Qed.

Lemma contains_iff r p :
  QRect.x1 r - 1 <= QRect.x2 r -> QRect.y1 r - 1 <= QRect.y2 r ->
  QRect.contains r p = true <->
  (QRect.x1 r <= QPoint.x p <= QRect.x2 r) /\
  (QRect.y1 r <= QPoint.y p <= QRect.y2 r).
Proof.
  intros Hx Hy. unfold QRect.contains.
  destruct (Z.ltb_spec (QRect.x2 r) (QRect.x1 r - 1)); [lia |].
  destruct (Z.ltb_spec (QRect.y2 r) (QRect.y1 r - 1)); [lia |].
  rewrite andb_true_iff, !negb_true_iff, !orb_false_iff, !Z.ltb_ge. lia.
Qed.

(** X2: for a positive grid size and a bounding rect of nonnegative width
    and height, the body holds a pixel point exactly if the point lies in
    the rectangle spanned by the two turned corners of the bounding rect,
    moved to the element's position and scaled to pixels; the smaller edge
    is inside and the larger edge outside, whatever the facing. *)
Theorem body_hit_region el gs pos x y xb yb w h :
  0 < gs -> 0 <= w -> 0 <= h ->
  position el = (x, y) -> bounding_rect el = (xb, yb, w, h) ->
  let c1 := rotate xb yb (facing el) in
  let c2 := rotate (xb + w) (yb + h) (facing el) in
  QRect.contains (body_rect el gs) pos = true <->
  (x + Z.min (fst c1) (fst c2)) * gs <= QPoint.x pos
    < (x + Z.max (fst c1) (fst c2)) * gs /\
  (y + Z.min (snd c1) (snd c2)) * gs <= QPoint.y pos
    < (y + Z.max (snd c1) (snd c2)) * gs.
Proof.
  intros Hgs Hw Hh Hpos Hrect. unfold body_rect. rewrite Hpos, Hrect.
  assert (Hwg : 0 <= w * gs) by nia. assert (Hhg : 0 <= h * gs) by nia.
  assert (Ex : (xb + w) * gs = xb * gs + w * gs) by ring.
  assert (Ey : (yb + h) * gs = yb * gs + h * gs) by ring.
  destruct (facing el); simpl.
  - rewrite contains_iff; simpl; [| lia | lia].
    rewrite (Z.min_l xb (xb + w)), (Z.max_r xb (xb + w)) by lia.
    rewrite (Z.min_l yb (yb + h)), (Z.max_r yb (yb + h)) by lia. nia.
  - unfold QTransform.mapRect, QTransform.map, QTransform.min4,
      QTransform.max4, QRect.of_xywh, QRect.left, QRect.right, QRect.top,
      QRect.bottom; simpl.
    rewrite contains_iff; simpl; [| lia | lia].
    rewrite (Z.min_l yb (yb + h)), (Z.max_r yb (yb + h)) by lia.
    rewrite (Z.min_r (- xb) (- (xb + w))), (Z.max_l (- xb) (- (xb + w)))
      by lia.
    nia.
  - unfold QTransform.mapRect, QRect.width, QRect.height, QRect.of_xywh;
      simpl.
    destruct (Z.ltb_spec (- (xb * gs + w * gs - 1 - xb * gs + 1)) 0);
      destruct (Z.ltb_spec (- (yb * gs + h * gs - 1 - yb * gs + 1)) 0);
      (rewrite contains_iff; simpl; [| lia | lia]);
      rewrite (Z.min_r (- xb) (- (xb + w))), (Z.max_l (- xb) (- (xb + w)))
        by lia;
      rewrite (Z.min_r (- yb) (- (yb + h))), (Z.max_l (- yb) (- (yb + h)))
        by lia;
      nia.
  - unfold QTransform.mapRect, QTransform.map, QTransform.min4,
      QTransform.max4, QRect.of_xywh, QRect.left, QRect.right, QRect.top,
      QRect.bottom; simpl.
    rewrite contains_iff; simpl; [| lia | lia].
    rewrite (Z.min_r (- yb) (- (yb + h))), (Z.max_l (- yb) (- (yb + h)))
      by lia.
    rewrite (Z.min_l xb (xb + w)), (Z.max_r xb (xb + w)) by lia.
    nia.
Qed.

Lemma body_hit_region_witness :
  QRect.contains (body_rect turned_gate 16) (QPoint.mk 32 (-32)) = true /\
  QRect.contains (body_rect turned_gate 16) (QPoint.mk 63 15) = true.
Proof.
  split.
  - apply (body_hit_region turned_gate 16 (QPoint.mk 32 (-32)) 3 1 0 (-1) 3 2);
      [lia | lia | lia | reflexivity | reflexivity | simpl; lia].
  - apply (body_hit_region turned_gate 16 (QPoint.mk 63 15) 3 1 0 (-1) 3 2);
      [lia | lia | lia | reflexivity | reflexivity | simpl; lia].
Defined.

(** ** Grid mapping *)

Lemma round_half_even_multiple k b : b <> 0 -> round_half_even (k * b) b = k.
Proof.
  intros Hb. unfold round_half_even.
  rewrite Z.div_mul, Z.mod_mul by exact Hb.
  change (2 * Z.abs 0) with 0.
  destruct (0 ?= Z.abs b) eqn:Hc; [| reflexivity |].
  - apply Z.compare_eq_iff in Hc. lia.
  - apply Z.compare_gt_iff in Hc. lia.
Qed.

Lemma round_half_even_cases a b :
  b <> 0 ->
  let r := round_half_even a b in
  2 * Z.abs (r * b - a) < Z.abs b \/
  (2 * Z.abs (r * b - a) = Z.abs b /\ Z.even r = true).
Proof.
  intros Hb r. subst r. unfold round_half_even.
  pose proof (Z.div_mod a b Hb) as Hdm.
  assert (Hr : Z.abs (a mod b) < Z.abs b).
  { destruct (Z.lt_total b 0) as [Hneg | [H0 | Hpos]]; [| lia |].
    - pose proof (Z.mod_neg_bound a b Hneg). lia.
    - pose proof (Z.mod_pos_bound a b Hpos). lia. }
  assert (Hsign : (0 <= a mod b /\ 0 < b) \/ (a mod b <= 0 /\ b < 0)).
  { destruct (Z.lt_total b 0) as [Hneg | [H0 | Hpos]]; [| lia |].
    - pose proof (Z.mod_neg_bound a b Hneg). lia.
    - pose proof (Z.mod_pos_bound a b Hpos). lia. }
  set (q := a / b) in *. set (m := a mod b) in *.
  assert (E1 : q * b - a = - m) by lia.
  assert (E2 : (q + 1) * b - a = b - m) by lia.
  destruct (Z.compare_spec (2 * Z.abs m) (Z.abs b)) as [Heq | Hlt | Hgt].
  - destruct (Z.even q) eqn:Hev.
    + right. rewrite E1. split; [lia | exact Hev].
    + right. rewrite E2. split; [lia |].
      rewrite Z.even_add, Hev. reflexivity.
  - left. rewrite E1. lia.
  - left. rewrite E2. lia.
Qed.

(** X3: for a grid size other than 0, mapping a pixel point to the grid
    never raises and gives a grid point whose pixel position is at most
    half a cell away in each direction; a point exactly half way between
    two grid lines goes to the even one; and the pixel position of a grid
    point maps back to that grid point. *)
Theorem grid_snap d gs :
  gs <> 0 ->
  exists p,
    to_grid d gs = Ok p /\
    2 * Z.abs (QPoint.x p * gs - QPoint.x d) <= Z.abs gs /\
    2 * Z.abs (QPoint.y p * gs - QPoint.y d) <= Z.abs gs /\
    (2 * Z.abs (QPoint.x p * gs - QPoint.x d) = Z.abs gs ->
       Z.even (QPoint.x p) = true) /\
    (2 * Z.abs (QPoint.y p * gs - QPoint.y d) = Z.abs gs ->
       Z.even (QPoint.y p) = true) /\
    to_grid (QPoint.scale p gs) gs = Ok p.
Proof.
  intros Hgs. rewrite (to_grid_ok d gs Hgs). eexists. split; [reflexivity |].
  simpl.
  pose proof (round_half_even_cases (QPoint.x d) gs Hgs) as Hx.
  pose proof (round_half_even_cases (QPoint.y d) gs Hgs) as Hy.
  simpl in Hx, Hy.
  split; [lia |]. split; [lia |].
  split; [intros H; destruct Hx as [Hx | [_ Hx]]; [lia | exact Hx] |].
  split; [intros H; destruct Hy as [Hy | [_ Hy]]; [lia | exact Hy] |].
  rewrite (to_grid_ok _ gs Hgs). simpl.
  rewrite !round_half_even_multiple by exact Hgs. reflexivity.
Qed.

Lemma grid_snap_witness :
  exists p,
    to_grid (QPoint.mk 40 (-24)) 16 = Ok p /\
    to_grid (QPoint.scale p 16) 16 = Ok p.
Proof.
  destruct (grid_snap (QPoint.mk 40 (-24)) 16 ltac:(discriminate))
    as (p & Hp & _ & _ & _ & _ & Hback).
  exists p. split; assumption.
Defined.

(** ** Wire gestures *)

Lemma _get_wire_route e a b :
  _state e = Edit EditState.WIRE -> _start e = Some a -> _end e = Some b ->
  _get_wire e = Ok (route a b).
Proof.
  intros Hs Ha Hb. rewrite (_get_wire_eq e a b Hs Ha Hb). unfold route.
  destruct (QPoint.eqb _ _); [reflexivity |]. destruct (_ >? _); reflexivity.
Qed.

(** X4: for [a <> b] the two segments of the route form a path from [a] to
    [b]: the first starts at [a], the second starts where the first ends and
    ends at [b]; both are parallel to an axis; their lengths add up to
    [|delta.x| + |delta.y|], the least any such path can have; and the
    first is at least as long as the second. *)
Theorem route_is_shortest_path e a b :
  _state e = Edit EditState.WIRE -> _start e = Some a -> _end e = Some b ->
  a <> b ->
  exists s1 s2,
    _get_wire e = Ok [s1; s2] /\
    segment_start s1 = a /\ segment_end s1 = segment_start s2 /\
    segment_end s2 = b /\
    axis_aligned s1 = true /\ axis_aligned s2 = true /\
    segment_length s1 + segment_length s2
      = Z.abs (QPoint.x b - QPoint.x a) + Z.abs (QPoint.y b - QPoint.y a) /\
    segment_length s2 <= segment_length s1.
Proof.
  intros Hs Ha Hb Hne.
  pose proof (_get_wire_eq e a b Hs Ha Hb) as Hw.
  rewrite (delta_nonzero a b Hne) in Hw.
  destruct a as [ax ay], b as [bx by_]. simpl in *.
  destruct (Z.abs (bx - ax) >? Z.abs (by_ - ay)) eqn:Hgt.
  - apply Z.gtb_lt in Hgt.
    exists (ax, ay, bx, ay), (bx, ay, bx, by_).
    split; [exact Hw |]. simpl. rewrite !Z.eqb_refl, orb_true_r. simpl.
    repeat split; lia.
  - assert (Hle : Z.abs (bx - ax) <= Z.abs (by_ - ay)).
    { destruct (Z.gtb_spec (Z.abs (bx - ax)) (Z.abs (by_ - ay)));
        [discriminate | lia]. }
    exists (ax, ay, ax, by_), (ax, by_, bx, by_).
    split; [exact Hw |]. simpl. rewrite !Z.eqb_refl, orb_true_r. simpl.
    repeat split; lia.
Qed.

Lemma route_is_shortest_path_witness :
  exists s1 s2,
    _get_wire (wire_gesture (QPoint.mk 4 7) (QPoint.mk 2 (-1)) one_gate)
      = Ok [s1; s2] /\
    segment_length s1 + segment_length s2 = 10.
Proof.
  destruct (route_is_shortest_path
              (wire_gesture (QPoint.mk 4 7) (QPoint.mk 2 (-1)) one_gate)
              (QPoint.mk 4 7) (QPoint.mk 2 (-1))
              eq_refl eq_refl eq_refl ltac:(discriminate))
    as (s1 & s2 & Hw & _ & _ & _ & _ & _ & Hlen & _).
  exists s1, s2. split; [exact Hw | exact Hlen].
Defined.

Lemma move_while_wiring e ep :
  grid_size e <> 0 -> _mode e = EDIT ->
  _state e = Edit EditState.EMPTY_CLICK \/ _state e = Edit EditState.WIRE ->
  exists e',
    mouseMoveEvent ep e = Done e' /\
    _end e' = Some (grid_point (_translation e) (grid_size e) ep) /\
    objects e' = objects e /\ diagram e' = diagram e /\
    _start e' = _start e /\ element_selected e' = element_selected e /\
    _state e' = Edit EditState.WIRE /\ _mode e' = EDIT /\
    grid_size e' = grid_size e /\ _translation e' = _translation e.
Proof.
  intros Hgs Hm Hs. unfold mouseMoveEvent.
  rewrite !(to_grid_ok _ _ Hgs). simpl. rewrite Hm.
  destruct Hs as [Hs | Hs]; rewrite Hs; eexists; repeat split; assumption.
Qed.

Lemma moves_while_wiring `{F : DiagramFacade} mvs : forall e en,
  grid_size e <> 0 -> _mode e = EDIT ->
  _state e = Edit EditState.WIRE \/
  (_state e = Edit EditState.EMPTY_CLICK /\ mvs <> []) ->
  _end e = Some en ->
  let e1 := run (map Move mvs) e in
  _end e1 = Some (running_end (_translation e) (grid_size e) en mvs) /\
  objects e1 = objects e /\ diagram e1 = diagram e /\
  _start e1 = _start e /\ element_selected e1 = element_selected e /\
  _state e1 = Edit EditState.WIRE /\ _mode e1 = EDIT /\
  grid_size e1 = grid_size e /\ _translation e1 = _translation e.
Proof.
  induction mvs as [|m rest IH]; intros e en Hgs Hm Hs Hen; simpl.
  - destruct Hs as [Hs | [_ Hne]]; [| contradiction].
    repeat split; assumption.
  - assert (Hs0 : _state e = Edit EditState.EMPTY_CLICK \/
                  _state e = Edit EditState.WIRE)
      by (destruct Hs as [Hs | [Hs _]]; [right | left]; exact Hs).
    destruct (move_while_wiring e m Hgs Hm Hs0)
      as (e' & Hmv & Hen' & Hob & Hdg & Hst & Hlog & Hs' & Hm' & Hgs' & Htr).
    rewrite Hmv. simpl.
    assert (Hgs1 : grid_size e' <> 0) by (rewrite Hgs'; exact Hgs).
    destruct (IH e' _ Hgs1 Hm' (or_introl Hs') Hen')
      as (Hen1 & Hob1 & Hdg1 & Hst1 & Hlog1 & Hs1 & Hm1 & Hg1 & Htr1).
    rewrite Hen1, Hob1, Hdg1, Hst1, Hlog1, Hs1, Hm1, Hg1, Htr1.
    rewrite Hgs', Htr. repeat split; try assumption.
    rewrite running_end_cons. reflexivity.
Qed.

(** X5: a wire gesture commits once, on release.  The moves leave the
    diagram and the elements as they are and only carry the end anchor
    along; the release hands the route from the start anchor to the last
    end anchor to [change_wires], takes the diagram that call returns and
    goes back to state NONE; the point of the release itself is not
    used. *)
Theorem wire_commit `{F : DiagramFacade} e a en (mvs : list QPoint) ep :
  grid_size e <> 0 -> _mode e = EDIT ->
  _state e = Edit EditState.WIRE \/
  (_state e = Edit EditState.EMPTY_CLICK /\ mvs <> []) ->
  _start e = Some a -> _end e = Some en ->
  let e1 := run (map Move mvs) e in
  let b := running_end (_translation e) (grid_size e) en mvs in
  diagram e1 = diagram e /\ objects e1 = objects e /\
  _state e1 = Edit EditState.WIRE /\
  mouseReleaseEvent ep e1 =
    attempt (change_wires (route a b) (diagram e)) e1
      (fun dg => Done (with_state (Edit EditState.NONE) (with_diagram dg e1))).
Proof.
  intros Hgs Hm Hs Ha Hen e1 b.
  destruct (moves_while_wiring mvs e en Hgs Hm Hs Hen)
    as (Hen1 & Hob1 & Hdg1 & Hst1 & _ & Hs1 & Hm1 & Hg1 & _).
  fold e1 in Hen1, Hob1, Hdg1, Hst1, Hs1, Hm1, Hg1. fold b in Hen1.
  rewrite Ha in Hst1.
  split; [exact Hdg1 |]. split; [exact Hob1 |]. split; [exact Hs1 |].
  unfold mouseReleaseEvent.
  rewrite (to_grid_ok _ (grid_size e1)) by (rewrite Hg1; exact Hgs).
  rewrite Hm1, Hs1. simpl.
  rewrite (_get_wire_route e1 a b Hs1 Hst1 Hen1), Hdg1. reflexivity.
Qed.

Lemma run_single `{F : DiagramFacade} ev e :
  run [ev] e = session (handle ev e).
Proof. reflexivity. Qed.

Lemma wire_commit_witness :
  _state pressed_empty = Edit EditState.EMPTY_CLICK /\
  wires (diagram
           (run [Release (QPoint.mk 0 0)]
              (run (map Move [QPoint.mk 170 200; QPoint.mk 192 176])
                   pressed_empty))) !! (11, 10)
  = Some (mkWireNode (true, false, true, false) false).
Proof.
  split; [reflexivity |].
  assert (Hs : _state pressed_empty = Edit EditState.WIRE \/
               (_state pressed_empty = Edit EditState.EMPTY_CLICK /\
                [QPoint.mk 170 200; QPoint.mk 192 176] <> []))
    by (right; split; [reflexivity | discriminate]).
  destruct (wire_commit pressed_empty (QPoint.mk 10 10) (QPoint.mk 10 10)
              [QPoint.mk 170 200; QPoint.mk 192 176] (QPoint.mk 0 0)
              ltac:(discriminate) eq_refl Hs eq_refl eq_refl)
    as (_ & _ & _ & Hrel).
  rewrite run_single. unfold handle. rewrite Hrel. reflexivity.
Defined.

(** ** Sessions the actions can reach *)

Ltac split_cases :=
  repeat
    (simpl in *;
     match goal with
     | H : _ && _ = true |- _ => apply andb_true_iff in H as [? ?]
     | H : is_same _ _ = true |- _ => apply is_same_true in H; rewrite H
     | H : is_set ?o = true |- _ =>
         destruct o eqn:?; [clear H | discriminate H]
     | |- context [match ?x with _ => _ end] =>
         lazymatch x with
         | context [match _ with _ => _ end] => fail
         | _ => destruct x eqn:?; try discriminate; try congruence
         end
     | |- _ /\ _ => split
     end);
  repeat match goal with
         | H : ?x = Some _ |- context [?x] => rewrite H
         end;
  try reflexivity; try congruence.

Ltac from_diagram :=
  first [ left; eexists _, _; eassumption
        | right; left; eexists _, _; eassumption
        | right; right; eexists _, _; eassumption ].

Lemma act_keeps_well_formed `{F : DiagramFacade} a e :
  grid_size e <> 0 -> well_formed e = true ->
  match act a e with
  | Done e' => well_formed e' = true /\ grid_size e' = grid_size e
  | Raised x e' =>
      raised_by_diagram x /\ well_formed e' = true /\
      grid_size e' = grid_size e
  end.
Proof.
  intros Hgs Hwf. unfold well_formed in Hwf.
  destruct a as [[pos | pos | pos] | | | | r | dg]; simpl;
    unfold mousePressEvent, mouseMoveEvent, mouseReleaseEvent,
      toggle_interaction_mode, cancel_interaction, delete_selected_element,
      delete_element, start_placing, stop_placing, unselect, anchor_delta,
      call_generator, _get_wire, attempt, well_formed, from_option, bind;
    rewrite ?(to_grid_ok _ _ Hgs); simpl;
    destruct (_mode e) eqn:Hm; destruct (_state e) as [[]|[]] eqn:Hs;
    split_cases; from_diagram.
Qed.

(** X6: from a well-formed session with a grid size other than 0, every
    list of pointer events, shortcuts, palette clicks and diagram changes
    leads to a well-formed session with the same grid size, and every
    exception raised on the way was raised by a call of the diagram: the
    handlers themselves never divide by zero, never compute with an anchor
    that is [None] and never ask [None] for a position. *)
Theorem actions_keep_well_formed `{F : DiagramFacade} acts : forall e,
  grid_size e <> 0 -> well_formed e = true ->
  well_formed (fst (perform acts e)) = true /\
  grid_size (fst (perform acts e)) = grid_size e /\
  Forall raised_by_diagram (snd (perform acts e)).
Proof.
  induction acts as [|a rest IH]; intros e Hgs Hwf; simpl.
  - split; [exact Hwf |]. split; [reflexivity | constructor].
  - pose proof (act_keeps_well_formed a e Hgs Hwf) as Hact.
    destruct (act a e) as [e' | x e'].
    + destruct Hact as [Hwf' Hgs'].
      destruct (IH e' ltac:(rewrite Hgs'; exact Hgs) Hwf') as (H1 & H2 & H3).
      split; [exact H1 |]. split; [congruence | exact H3].
    + destruct Hact as (Hx & Hwf' & Hgs').
      destruct (IH e' ltac:(rewrite Hgs'; exact Hgs) Hwf') as (H1 & H2 & H3).
      destruct (perform rest e') as [e'' xs]. simpl in *.
      split; [exact H1 |]. split; [congruence |].
      constructor; assumption.
Qed.

Lemma actions_keep_well_formed_witness :
  well_formed
    (fst (perform
            [ StartPlacing 2%positive; Pointer (Move (QPoint.mk 100 40));
              Pointer (Release (QPoint.mk 100 40)); Delete; ToggleMode;
              Pointer (Press (QPoint.mk 5 5)); Cancel;
              Pointer (Release (QPoint.mk 9 9)) ]
            two_gates)) = true.
Proof.
  apply (actions_keep_well_formed _ two_gates);
    [discriminate | reflexivity].
Defined.

(** ** Cancelling and switching modes *)

Lemma idle_ignores_move e ep :
  grid_size e <> 0 -> idle e = true ->
  exists c, mouseMoveEvent ep e = Done (with_cursor_pos c e).
Proof.
  intros Hgs Hidle. unfold idle in Hidle. unfold mouseMoveEvent.
  rewrite !(to_grid_ok _ _ Hgs). simpl. eexists.
  destruct (_mode e); destruct (_state e) as [[]|[]]; try discriminate;
    reflexivity.
Qed.

Lemma idle_ignores_release `{F : DiagramFacade} e ep :
  grid_size e <> 0 -> idle e = true -> mouseReleaseEvent ep e = Done e.
Proof.
  intros Hgs Hidle. unfold idle in Hidle. unfold mouseReleaseEvent.
  rewrite (to_grid_ok _ _ Hgs). simpl.
  destruct (_mode e); destruct (_state e) as [[]|[]]; try discriminate;
    reflexivity.
Qed.

Lemma idle_ignores_moves_and_release `{F : DiagramFacade} mvs : forall e ep,
  grid_size e <> 0 -> idle e = true ->
  exists c, run (map Move mvs ++ [Release ep]) e = with_cursor_pos c e.
Proof.
  induction mvs as [|m rest IH]; intros e ep Hgs Hidle; simpl.
  - rewrite (idle_ignores_release e ep Hgs Hidle). simpl.
    exists (_cursor_pos e). destruct e; reflexivity.
  - destruct (idle_ignores_move e m Hgs Hidle) as [c Hc]. rewrite Hc. simpl.
    destruct (IH (with_cursor_pos c e) ep Hgs Hidle) as [c' Hc'].
    rewrite Hc'. exists c'. reflexivity.
Qed.

(** X7: Escape abandons the gesture under way.  After [cancel_interaction]
    the session is idle in its mode, with the diagram, the elements, the
    translation, the selection and the notifications as they were; the
    moves and the release that still arrive from the abandoned gesture
    change nothing but the cursor position: no drag is committed, no wire,
    no placement, no pan. *)
Theorem cancel_abandons_gesture `{F : DiagramFacade} e mvs ep :
  grid_size e <> 0 ->
  idle (cancel_interaction e) = true /\
  _mode (cancel_interaction e) = _mode e /\
  exists c,
    run (map Move mvs ++ [Release ep]) (cancel_interaction e)
    = with_cursor_pos c (cancel_interaction e) /\
    diagram (with_cursor_pos c (cancel_interaction e)) = diagram e /\
    objects (with_cursor_pos c (cancel_interaction e)) = objects e /\
    _translation (with_cursor_pos c (cancel_interaction e)) = _translation e /\
    _selected_element (with_cursor_pos c (cancel_interaction e))
      = _selected_element e /\
    element_selected (with_cursor_pos c (cancel_interaction e))
      = element_selected e.
Proof.
  intros Hgs.
  assert (Hidle : idle (cancel_interaction e) = true).
  { unfold idle, cancel_interaction.
    destruct (_mode e) eqn:Hm; simpl; rewrite Hm; reflexivity. }
  assert (Hgs' : grid_size (cancel_interaction e) <> 0).
  { unfold cancel_interaction. destruct (_mode e); exact Hgs. }
  split; [exact Hidle |].
  split; [unfold cancel_interaction; destruct (_mode e) eqn:Hm; exact Hm |].
  destruct (idle_ignores_moves_and_release mvs _ ep Hgs' Hidle) as [c Hc].
  exists c. split; [exact Hc |].
  unfold cancel_interaction. destruct (_mode e); repeat split.
Qed.

Lemma cancel_abandons_gesture_witness :
  position
    (objects
       (run (map Move [QPoint.mk 90 70] ++ [Release (QPoint.mk 90 70)])
            (cancel_interaction
               (run [Move (QPoint.mk 60 50)] pressed_gate))) 1%positive)
  = (2, 2).
Proof.
  destruct (cancel_abandons_gesture
              (run [Move (QPoint.mk 60 50)] pressed_gate)
              [QPoint.mk 90 70] (QPoint.mk 90 70) ltac:(discriminate))
    as (_ & _ & c & Hrun & _ & Hob & _).
  rewrite Hrun, Hob. reflexivity.
Defined.

(** X8: the mode shortcut flips the mode, toggling twice gives the first
    mode back, and the session after a toggle is idle in the new mode with
    the diagram, the elements and the translation as they were; the moves
    and the release of a gesture cut off by the toggle change nothing but
    the cursor position, so a wire or a drag under way is not committed. *)
Theorem toggle_abandons_gesture `{F : DiagramFacade} e mvs ep :
  grid_size e <> 0 ->
  _mode (toggle_interaction_mode e) <> _mode e /\
  _mode (toggle_interaction_mode (toggle_interaction_mode e)) = _mode e /\
  idle (toggle_interaction_mode e) = true /\
  exists c,
    run (map Move mvs ++ [Release ep]) (toggle_interaction_mode e)
    = with_cursor_pos c (toggle_interaction_mode e) /\
    diagram (with_cursor_pos c (toggle_interaction_mode e)) = diagram e /\
    objects (with_cursor_pos c (toggle_interaction_mode e)) = objects e /\
    _translation (with_cursor_pos c (toggle_interaction_mode e))
      = _translation e.
Proof.
  intros Hgs.
  assert (Hidle : idle (toggle_interaction_mode e) = true)
    by (unfold idle, toggle_interaction_mode; destruct (_mode e); reflexivity).
  split; [unfold toggle_interaction_mode; destruct (_mode e); discriminate |].
  split; [unfold toggle_interaction_mode; simpl;
          destruct (_mode e); reflexivity |].
  split; [exact Hidle |].
  destruct (idle_ignores_moves_and_release mvs (toggle_interaction_mode e) ep
              Hgs Hidle) as [c Hc].
  exists c. split; [exact Hc |]. repeat split.
Qed.

Lemma toggle_abandons_gesture_witness :
  wires (diagram
           (run (map Move [QPoint.mk 300 160] ++ [Release (QPoint.mk 300 160)])
                (toggle_interaction_mode
                   (run [Move (QPoint.mk 200 160)] pressed_empty))))
  = ∅.
Proof.
  destruct (toggle_abandons_gesture
              (run [Move (QPoint.mk 200 160)] pressed_empty)
              [QPoint.mk 300 160] (QPoint.mk 300 160) ltac:(discriminate))
    as (_ & _ & _ & c & Hrun & Hdg & _).
  rewrite Hrun, Hdg. reflexivity.
Defined.

(** ** View mode *)

(** X9: in VIEW mode no pointer event edits: the diagram, the elements, the
    selection, the element being placed and the notifications are after a
    press, a move or a release what they were before, and the mode is still
    VIEW. *)
Theorem view_mode_never_edits `{F : DiagramFacade} e ev :
  _mode e = VIEW ->
  let e' := session (handle ev e) in
  diagram e' = diagram e /\ objects e' = objects e /\
  _selected_element e' = _selected_element e /\
  _placing_element e' = _placing_element e /\
  element_selected e' = element_selected e /\
  _mode e' = VIEW.
Proof.
  intros Hm e'. subst e'.
  destruct ev as [pos | pos | pos]; simpl;
    unfold mousePressEvent, mouseMoveEvent, mouseReleaseEvent, attempt,
      anchor_delta, from_option, bind;
    rewrite ?Hm;
    repeat match goal with
           | |- context [match ?x with _ => _ end] =>
               lazymatch x with
               | context [match _ with _ => _ end] => fail
               | _ => destruct x eqn:?; simpl in *; try congruence
               end
           end; simpl; repeat split; congruence.
Qed.

Lemma view_mode_never_edits_witness :
  objects (session (handle (Release (QPoint.mk 140 70)) panning))
  = objects panning.
Proof.
  destruct (view_mode_never_edits panning (Release (QPoint.mk 140 70))
              eq_refl) as (_ & H & _).
  exact H.
Defined.

(** ** Placing an element *)

Lemma move_while_placing e ep r :
  grid_size e <> 0 -> _mode e = EDIT -> _state e = Edit EditState.PLACE ->
  _placing_element e = Some r ->
  exists c,
    mouseMoveEvent ep e =
      Done (with_objects
              (store_position r
                 (QPoint.x (grid_point (_translation e) (grid_size e) ep),
                  QPoint.y (grid_point (_translation e) (grid_size e) ep))
                 (objects e))
              (with_cursor_pos c e)).
Proof.
  intros Hgs Hm Hs Hpl. unfold mouseMoveEvent.
  rewrite !(to_grid_ok _ _ Hgs). simpl. rewrite Hm, Hs, Hpl. simpl.
  eexists. reflexivity.
Qed.

Lemma moves_while_placing `{F : DiagramFacade} mvs : forall e r,
  grid_size e <> 0 -> _mode e = EDIT -> _state e = Edit EditState.PLACE ->
  _placing_element e = Some r ->
  let e1 := run (map Move mvs) e in
  _mode e1 = EDIT /\ _state e1 = Edit EditState.PLACE /\
  _placing_element e1 = Some r /\ grid_size e1 = grid_size e /\
  _translation e1 = _translation e /\ diagram e1 = diagram e /\
  _selected_element e1 = _selected_element e /\
  element_selected e1 = element_selected e /\
  (forall r', r' <> r -> objects e1 r' = objects e r') /\
  (forall m, last mvs = Some m ->
     position (objects e1 r)
     = (QPoint.x (grid_point (_translation e) (grid_size e) m),
        QPoint.y (grid_point (_translation e) (grid_size e) m))).
Proof.
  induction mvs as [|m rest IH]; intros e r Hgs Hm Hs Hpl; simpl.
  - repeat split; try assumption. intros m [=].
  - destruct (move_while_placing e m r Hgs Hm Hs Hpl) as [c Hmv].
    rewrite Hmv. simpl.
    set (e' := with_objects _ (with_cursor_pos c e)).
    destruct (IH e' r Hgs Hm Hs Hpl)
      as (H1 & H2 & H3 & H4 & H5 & H6 & H7 & H8 & H9 & H10).
    repeat split; try assumption.
    + intros r' Hne. rewrite (H9 r' Hne). unfold e'. simpl.
      unfold store_position. apply Pos.eqb_neq in Hne. rewrite Hne.
      reflexivity.
    + intros m'. rewrite last_cons. destruct (last rest) as [m2|] eqn:Hlast.
      * intros [= <-]. rewrite (H10 m2 eq_refl). reflexivity.
      * intros [= <-]. apply last_None in Hlast. subst rest.
        simpl. unfold e'. simpl. unfold store_position.
        rewrite Pos.eqb_refl. reflexivity.
Qed.

(** X10: placing an element.  [start_placing] switches to EDIT mode if
    need be and enters state PLACE without touching the diagram; while
    placing, presses are ignored and every move puts the element on the
    grid point of the pointer, leaving all other elements alone; the
    release hands the element to the diagram's [add_element], makes it the
    selected element in state SELECT and notifies the listener once, with
    that element. *)
Theorem placement `{F : DiagramFacade} e0 r (mvs : list QPoint) ep :
  grid_size e0 <> 0 ->
  let e := start_placing (Some r) e0 in
  let e1 := run (map Move mvs) e in
  _mode e = EDIT /\ _state e1 = Edit EditState.PLACE /\
  diagram e1 = diagram e0 /\
  (forall pos, mousePressEvent pos e1 = Done e1) /\
  (forall r', r' <> r -> objects e1 r' = objects e0 r') /\
  (forall m, last mvs = Some m ->
     position (objects e1 r)
     = (QPoint.x (grid_point (_translation e0) (grid_size e0) m),
        QPoint.y (grid_point (_translation e0) (grid_size e0) m))) /\
  mouseReleaseEvent ep e1 =
    attempt (add_element (Some r) (diagram e0))
      (with_state (Edit EditState.SELECT) e1)
      (fun dg =>
         Done (emit (Some r)
                 (with_selected_element (Some r)
                    (with_diagram dg
                       (with_state (Edit EditState.SELECT) e1))))).
Proof.
  intros Hgs e e1.
  assert (Hm : _mode e = EDIT)
    by (unfold e, start_placing, toggle_interaction_mode;
        destruct (_mode e0) eqn:H; simpl; [exact H | reflexivity]).
  assert (Hs : _state e = Edit EditState.PLACE) by reflexivity.
  assert (Hpl : _placing_element e = Some r) by reflexivity.
  assert (Hgse : grid_size e = grid_size e0)
    by (unfold e, start_placing, toggle_interaction_mode;
        destruct (_mode e0); reflexivity).
  assert (Htre : _translation e = _translation e0)
    by (unfold e, start_placing, toggle_interaction_mode;
        destruct (_mode e0); reflexivity).
  assert (Hdge : diagram e = diagram e0)
    by (unfold e, start_placing, toggle_interaction_mode;
        destruct (_mode e0); reflexivity).
  assert (Hobe : objects e = objects e0)
    by (unfold e, start_placing, toggle_interaction_mode;
        destruct (_mode e0); reflexivity).
  destruct (moves_while_placing mvs e r ltac:(rewrite Hgse; exact Hgs)
              Hm Hs Hpl)
    as (H1 & H2 & H3 & H4 & H5 & H6 & H7 & H8 & H9 & H10).
  fold e1 in H1, H2, H3, H4, H5, H6, H7, H8, H9, H10.
  assert (Hgs1 : grid_size e1 <> 0) by (rewrite H4, Hgse; exact Hgs).
  split; [exact Hm |]. split; [exact H2 |].
  split; [rewrite H6; exact Hdge |].
  split.
  { intros pos. unfold mousePressEvent.
    rewrite (to_grid_ok _ _ Hgs1), H1, H2. reflexivity. }
  split; [intros r' Hne; rewrite (H9 r' Hne), Hobe; reflexivity |].
  split; [intros m Hlast; rewrite (H10 m Hlast), Hgse, Htre; reflexivity |].
  unfold mouseReleaseEvent.
  rewrite (to_grid_ok _ _ Hgs1), H1, H2. simpl.
  rewrite H3, H6, Hdge. reflexivity.
Qed.

Lemma placement_witness :
  exists e',
    mouseReleaseEvent (QPoint.mk 0 0)
      (run (map Move [QPoint.mk 100 40; QPoint.mk 130 90])
           (start_placing (Some 2%positive) one_gate)) = Done e' /\
    elements (diagram e') = [1%positive; 2%positive] /\
    position (objects e' 2%positive) = (8, 6) /\
    _state e' = Edit EditState.SELECT /\
    _selected_element e' = Some 2%positive /\
    element_selected e' = [Some 2%positive].
Proof.
  destruct (placement one_gate 2%positive
              [QPoint.mk 100 40; QPoint.mk 130 90] (QPoint.mk 0 0)
              ltac:(discriminate))
    as (_ & _ & _ & _ & _ & _ & Hrel).
  rewrite Hrel. eexists. split; [reflexivity |]. repeat split.
Defined.

(** ** Panning and previews *)

Lemma move_while_panning e ep :
  grid_size e <> 0 -> _mode e = VIEW ->
  _state e = View ViewState.CLICK \/ _state e = View ViewState.MOVE ->
  exists e',
    mouseMoveEvent ep e = Done e' /\
    _end e' = Some (ep -p _translation e) /\ _start e' = _start e /\
    _state e' = View ViewState.MOVE /\ _mode e' = VIEW /\
    grid_size e' = grid_size e /\ _translation e' = _translation e.
Proof.
  intros Hgs Hm Hs. unfold mouseMoveEvent.
  rewrite !(to_grid_ok _ _ Hgs). simpl. rewrite Hm.
  destruct Hs as [Hs | Hs]; rewrite Hs; eexists; repeat split; assumption.
Qed.

Lemma moves_while_panning `{F : DiagramFacade} mvs : forall e b,
  grid_size e <> 0 -> _mode e = VIEW ->
  _state e = View ViewState.CLICK \/ _state e = View ViewState.MOVE ->
  let e1 := run (map Move (mvs ++ [b])) e in
  _end e1 = Some (b -p _translation e) /\ _start e1 = _start e /\
  _state e1 = View ViewState.MOVE /\ _mode e1 = VIEW /\
  grid_size e1 = grid_size e /\ _translation e1 = _translation e.
Proof.
  induction mvs as [|m rest IH]; intros e b Hgs Hm Hs; simpl.
  - destruct (move_while_panning e b Hgs Hm Hs)
      as (e' & Hmv & H1 & H2 & H3 & H4 & H5 & H6).
    rewrite Hmv. simpl. repeat split; assumption.
  - destruct (move_while_panning e m Hgs Hm Hs)
      as (e' & Hmv & H1 & H2 & H3 & H4 & H5 & H6).
    rewrite Hmv. simpl.
    destruct (IH e' b ltac:(rewrite H5; exact Hgs) H4 (or_intror H3))
      as (I1 & I2 & I3 & I4 & I5 & I6).
    rewrite I1, I2, I3, I4, I5, I6, H2, H5, H6. repeat split.
Qed.

(** X11: a pan.  In VIEW mode a press at pixel [a] followed by moves of
    which the last is at pixel [b] leaves the translation as it is while
    the view is already painted moved by [b - a]; the release, wherever it
    is, adds exactly [b - a] to the translation, so the view stays where it
    was painted, and the state is NONE again. *)
Theorem pan_commit `{F : DiagramFacade} e a (mvs : list QPoint) b ep :
  grid_size e <> 0 -> _mode e = VIEW ->
  let e1 := run (Press a :: map Move (mvs ++ [b])) e in
  let e2 := run [Release ep] e1 in
  _state e1 = View ViewState.MOVE /\
  _translation e1 = _translation e /\
  paint_translation e1 = Ok (_translation e +p (b -p a)) /\
  _translation e2 = _translation e +p (b -p a) /\
  paint_translation e2 = Ok (_translation e2) /\
  _state e2 = View ViewState.NONE.
Proof.
  intros Hgs Hm e1 e2.
  assert (Hpress : mousePressEvent a e =
    Done (with_end (Some (a -p _translation e))
            (with_start (Some (a -p _translation e))
               (with_state (View ViewState.CLICK) e))))
    by (unfold mousePressEvent; rewrite (to_grid_ok _ _ Hgs), Hm;
        reflexivity).
  set (e0 := with_end (Some (a -p _translation e))
               (with_start (Some (a -p _translation e))
                  (with_state (View ViewState.CLICK) e))) in *.
  assert (He1 : e1 = run (map Move (mvs ++ [b])) e0)
    by (unfold e1; simpl; rewrite Hpress; reflexivity).
  destruct (moves_while_panning mvs e0 b Hgs Hm (or_introl eq_refl))
    as (H1 & H2 & H3 & H4 & H5 & H6).
  rewrite <- He1 in H1, H2, H3, H4, H5, H6. simpl in H1, H2, H5, H6.
  assert (Hsum : forall tr : QPoint,
            tr +p (b -p tr) -p (a -p tr) = tr +p (b -p a))
    by (intros [tx ty]; destruct a, b; unfold QPoint.add, QPoint.sub; simpl;
        f_equal; lia).
  assert (Hsum' : forall tr : QPoint,
            tr +p ((b -p tr) -p (a -p tr)) = tr +p (b -p a))
    by (intros [tx ty]; destruct a, b; unfold QPoint.add, QPoint.sub; simpl;
        f_equal; lia).
  assert (Hrel : mouseReleaseEvent ep e1 =
            Done (with_translation (_translation e +p (b -p a))
                    (with_state (View ViewState.NONE) e1))).
  { unfold mouseReleaseEvent, anchor_delta.
    rewrite (to_grid_ok _ (grid_size e1)) by (rewrite H5; exact Hgs).
    rewrite H4, H3. simpl. rewrite H1, H2. simpl.
    rewrite H6, Hsum'. reflexivity. }
  assert (He2 : e2 = with_translation (_translation e +p (b -p a))
                       (with_state (View ViewState.NONE) e1))
    by (unfold e2; rewrite run_single; unfold handle; rewrite Hrel;
        reflexivity).
  split; [exact H3 |]. split; [exact H6 |].
  split.
  { unfold paint_translation. rewrite H4, H3, H1, H2. simpl.
    rewrite H6, Hsum. reflexivity. }
  rewrite He2. simpl. split; [reflexivity |].
  split; [| reflexivity].
  unfold paint_translation. simpl. rewrite H4. reflexivity.
Qed.

Lemma pan_commit_witness :
  _translation
    (run [Release (QPoint.mk 0 0)]
       (run (Press (QPoint.mk 100 50)
               :: map Move ([QPoint.mk 120 90] ++ [QPoint.mk 140 70]))
            (toggle_interaction_mode one_gate)))
  = QPoint.mk 40 20.
Proof.
  destruct (pan_commit (toggle_interaction_mode one_gate) (QPoint.mk 100 50)
              [QPoint.mk 120 90] (QPoint.mk 140 70) (QPoint.mk 0 0)
              ltac:(discriminate) eq_refl)
    as (_ & _ & _ & H & _).
  rewrite H. reflexivity.
Defined.

(** X12: the ghost of a drag is painted where the release will put the
    element: with the hypotheses of the drag, after the moves [paintEvent]
    shows the dragged element as a ghost at the very position the release
    then commits. *)
Theorem drag_ghost_is_committed `{F : DiagramFacade}
    e r s en (mvs : list QPoint) ep :
  grid_size e <> 0 -> _mode e = EDIT ->
  _state e = Edit EditState.DRAG \/
  (_state e = Edit EditState.ELEMENT_CLICK /\ mvs <> []) ->
  _selected_element e = Some r -> _start e = Some s -> _end e = Some en ->
  let e1 := run (map Move mvs) e in
  let e2 := run [Release ep] e1 in
  paint_ghost e1 = Ok (Some (r, position (objects e2 r))) /\
  paint_ghost e2 = Ok None.
Proof.
  intros Hgs Hm Hs Hsel Hst Hen e1 e2.
  destruct (moves_while_dragging mvs e en Hgs Hm Hs Hen)
    as (Hen1 & Hob1 & Hdg1 & Hst1 & Hsel1 & Hs1 & Hm1 & Hg1 & Htr1).
  fold e1 in Hen1, Hob1, Hdg1, Hst1, Hsel1, Hs1, Hm1, Hg1, Htr1.
  rewrite Hst in Hst1. rewrite Hsel in Hsel1.
  destruct (release_drag e1 ep r s _ ltac:(rewrite Hg1; exact Hgs)
              Hm1 Hs1 Hsel1 Hst1 Hen1)
    as (e' & Hr & Hs' & _ & Hpos & _).
  assert (He2 : e2 = e')
    by (unfold e2; rewrite run_single; unfold handle; rewrite Hr;
        reflexivity).
  rewrite He2. split.
  - unfold paint_ghost, anchor_delta. rewrite Hs1, Hen1, Hst1, Hsel1. simpl.
    rewrite Hpos. destruct (position (objects e1 r)). reflexivity.
  - unfold paint_ghost. rewrite Hs'. reflexivity.
Qed.

Lemma drag_ghost_is_committed_witness :
  paint_ghost
    (run (map Move [QPoint.mk 41 35; QPoint.mk 80 64]) pressed_gate)
  = Ok (Some (1%positive, (5, 4))).
Proof.
  assert (Hs : _state pressed_gate = Edit EditState.DRAG \/
               (_state pressed_gate = Edit EditState.ELEMENT_CLICK /\
                [QPoint.mk 41 35; QPoint.mk 80 64] <> []))
    by (right; split; [reflexivity | discriminate]).
  destruct (drag_ghost_is_committed pressed_gate 1%positive (QPoint.mk 2 2)
              (QPoint.mk 2 2) [QPoint.mk 41 35; QPoint.mk 80 64]
              (QPoint.mk 80 64) ltac:(discriminate) eq_refl Hs
              eq_refl eq_refl eq_refl) as (H & _).
  rewrite H. reflexivity.
Defined.

(** X13: presses and releases work on scene coordinates: if the view is
    panned by [t] more and the pointer is moved by [t] as well, a press or
    a release does to the session what it did before, the translation
    apart. *)
Theorem press_and_release_follow_the_pan `{F : DiagramFacade} t pos e :
  mousePressEvent (pos +p t) (panned_by t e)
    = outcome_map (panned_by t) (mousePressEvent pos e) /\
  mouseReleaseEvent (pos +p t) (panned_by t e)
    = outcome_map (panned_by t) (mouseReleaseEvent pos e).
Proof.
  assert (Hd : (pos +p t) -p (_translation e +p t) = pos -p _translation e)
    by (destruct pos, t, (_translation e); unfold QPoint.add, QPoint.sub;
        simpl; f_equal; lia).
  assert (Hcomm : forall d : QPoint,
            _translation e +p t +p d = _translation e +p d +p t)
    by (intros [dx dy]; destruct t, (_translation e);
        unfold QPoint.add; simpl; f_equal; lia).
  split.
  - unfold mousePressEvent, panned_by, attempt, element_at_position. simpl.
    rewrite Hd.
    destruct (to_grid _ _); [| reflexivity].
    destruct (_mode e); [| reflexivity].
    destruct (_state e) as [[]|]; try reflexivity;
      destruct (element_at_loop _ _ _ _); try reflexivity.
    destruct (is_same _ _); reflexivity.
  - unfold mouseReleaseEvent, panned_by, attempt, anchor_delta,
      call_generator, _get_wire, from_option, bind. simpl.
    rewrite Hd.
    destruct (to_grid _ _); [| reflexivity].
    destruct (_mode e); destruct (_state e) as [[]|[]]; simpl;
      try reflexivity.
    + destruct (wires (diagram e) !! _) as [node|]; [| reflexivity].
      destruct (all_connected node); reflexivity.
    + destruct (_start e); [| reflexivity].
      destruct (_end e); [| reflexivity].
      destruct (QPoint.eqb _ _); [| destruct (_ >? _)];
        destruct (change_wires _ _); reflexivity.
    + destruct (_selected_element e); [| reflexivity].
      destruct (position _).
      destruct (_end e); [| reflexivity].
      destruct (_start e); reflexivity.
    + destruct (add_element _ _); reflexivity.
    + destruct (_end e); [| reflexivity].
      destruct (_start e); [| reflexivity]. simpl.
      unfold with_translation. simpl. rewrite Hcomm. reflexivity.
Qed.

(** ** Selection and its listener *)

Lemma listener_in_sync_emit v e :
  listener_in_sync (emit v (with_selected_element v e)) = true.
Proof.
  unfold listener_in_sync. simpl. rewrite last_snoc.
  apply is_same_true. reflexivity.
Qed.

Ltac sync_cases :=
  repeat
    (simpl in *;
     match goal with
     | H : is_same _ _ = true |- _ => apply is_same_true in H
     | |- context [last (_ ++ [_])] => rewrite last_snoc
     | |- context [match ?x with _ => _ end] =>
         lazymatch x with
         | context [match _ with _ => _ end] => fail
         | _ => destruct x eqn:?; try discriminate; try congruence
         end
     end);
  try reflexivity; try congruence.

(** X14: the listener is told of every change of the selection but one.
    If the last notification agrees with [_selected_element], it still does
    after every action, raising or not, other than a press on an empty
    point in state SELECT. *)
Theorem listener_stays_in_sync `{F : DiagramFacade} a e :
  listener_in_sync e = true -> deselecting_press a e = false ->
  listener_in_sync (session (act a e)) = true.
Proof.
  intros Hsync Hnot. unfold listener_in_sync in Hsync.
  destruct a as [[pos | pos | pos] | | | | r | dg]; simpl;
    unfold mousePressEvent, mouseMoveEvent, mouseReleaseEvent,
      toggle_interaction_mode, cancel_interaction, delete_selected_element,
      delete_element, start_placing, stop_placing, unselect, anchor_delta,
      call_generator, attempt, from_option, bind, listener_in_sync,
      deselecting_press in *;
    sync_cases;
    try (apply is_same_true; reflexivity);
    try (rewrite Hsync; reflexivity);
    try match goal with
        | H : _selected_element e = _ |- _ => rewrite H; reflexivity
        end.
Qed.

Lemma listener_stays_in_sync_witness :
  listener_in_sync
    (session (act (Pointer (Press (QPoint.mk 32 32))) one_gate)) = true.
Proof.
  apply (listener_stays_in_sync (Pointer (Press (QPoint.mk 32 32))) one_gate);
    reflexivity.
Defined.

(** The one exception: the deselecting press leaves the listener with none
    and the session with the gate. *)
Example deselecting_press_breaks_sync :
  listener_in_sync selected_gate = true /\
  deselecting_press (Pointer (Press (QPoint.mk 200 200))) selected_gate
    = true /\
  listener_in_sync
    (session (act (Pointer (Press (QPoint.mk 200 200))) selected_gate))
    = false.
Proof. repeat split. Qed.

(** X15: a click selects.  In EDIT mode with no gesture under way, a press
    on an element followed by a release, with no move in between, ends in
    state SELECT with that element selected and last notified; no element
    moves and the diagram is as it was. *)
Theorem click_selects `{F : DiagramFacade} e pos ep r :
  grid_size e <> 0 -> _mode e = EDIT ->
  _state e = Edit EditState.NONE \/ _state e = Edit EditState.SELECT ->
  element_at_position e (pos -p _translation e) = Some r ->
  let e2 := run [Press pos; Release ep] e in
  _state e2 = Edit EditState.SELECT /\
  _selected_element e2 = Some r /\
  objects e2 = objects e /\ diagram e2 = diagram e /\
  (element_selected e2 = element_selected e \/
   element_selected e2 = element_selected e ++ [Some r]).
Proof.
  intros Hgs Hm Hs Hhit e2.
  assert (Hpress : exists e1,
            mousePressEvent pos e = Done e1 /\
            _state e1 = Edit EditState.ELEMENT_CLICK /\ _mode e1 = EDIT /\
            grid_size e1 = grid_size e /\ _selected_element e1 = Some r /\
            objects e1 = objects e /\ diagram e1 = diagram e /\
            (element_selected e1 = element_selected e \/
             element_selected e1 = element_selected e ++ [Some r])).
  { unfold mousePressEvent. rewrite (to_grid_ok _ _ Hgs), Hm, Hhit. simpl.
    destruct Hs as [Hs | Hs]; rewrite Hs.
    - eexists. split; [reflexivity |]. simpl. repeat split; auto.
    - destruct (is_same (_selected_element e) (Some r)) eqn:Hsame;
        eexists; (split; [reflexivity |]); simpl; repeat split; auto.
      apply is_same_true. exact Hsame. }
  destruct Hpress as (e1 & Hp & Hs1 & Hm1 & Hg1 & Hsel1 & Hob1 & Hdg1 & Hlog1).
  assert (Hrel : mouseReleaseEvent ep e1
                 = Done (with_state (Edit EditState.SELECT) e1)).
  { unfold mouseReleaseEvent.
    rewrite (to_grid_ok _ (grid_size e1)) by (rewrite Hg1; exact Hgs).
    rewrite Hm1, Hs1. reflexivity. }
  assert (He2 : e2 = with_state (Edit EditState.SELECT) e1)
    by (unfold e2; simpl; rewrite Hp; simpl; rewrite Hrel; reflexivity).
  rewrite He2. simpl. repeat split; assumption.
Qed.

Lemma click_selects_witness :
  _state (run [Press (QPoint.mk 20 40); Release (QPoint.mk 300 300)] one_gate)
    = Edit EditState.SELECT /\
  _selected_element
    (run [Press (QPoint.mk 20 40); Release (QPoint.mk 300 300)] one_gate)
    = Some 1%positive.
Proof.
  destruct (click_selects one_gate (QPoint.mk 20 40) (QPoint.mk 300 300)
              1%positive ltac:(discriminate) eq_refl (or_introl eq_refl)
              eq_refl) as (H1 & H2 & _).
  split; assumption.
Defined.

(** ** Names of new elements *)

Lemma pretty_N_char_no_underscore x :
  Ascii.eqb (pretty_N_char x) "_"%char = false.
Proof. unfold pretty_N_char. repeat case_match; reflexivity. Qed.

Lemma pretty_N_go_no_underscore x : forall s,
  mentions "_"%char s = false -> mentions "_"%char (pretty_N_go x s) = false.
Proof.
  induction (N.lt_wf_0 x) as [x _ IH]. intros s Hs.
  destruct (decide (x = 0)%N) as [-> | Hx].
  - rewrite pretty_N_go_0. exact Hs.
  - rewrite pretty_N_go_step by lia. apply IH.
    + apply N.div_lt; lia.
    + simpl. rewrite pretty_N_char_no_underscore. exact Hs.
Qed.

Lemma pretty_nat_no_underscore (n : nat) : mentions "_"%char (pretty n) = false.
Proof.
  unfold pretty, pretty_nat, pretty, pretty_N.
  destruct (decide (N.of_nat n = 0)%N); [reflexivity |].
  apply pretty_N_go_no_underscore. reflexivity.
Qed.

Lemma append_nil s : ("" +:+ s)%string = s.
Proof. reflexivity. Qed.

Lemma append_cons a s1 s2 :
  (String a s1 +:+ s2)%string = String a (s1 +:+ s2).
Proof. reflexivity. Qed.

Lemma append_underscore s : ("_" +:+ s)%string = String "_"%char s.
Proof. reflexivity. Qed.

Lemma mentions_app c s1 s2 :
  mentions c (s1 +:+ s2) = mentions c s1 || mentions c s2.
Proof.
  induction s1 as [|a s1 IH]; [reflexivity |].
  rewrite append_cons. simpl. rewrite IH, orb_assoc. reflexivity.
Qed.

(** A name determines its base and its number: the number has no
    underscore, so the name splits at its last one. *)
Lemma name_inj b1 : forall b2 d1 d2,
  mentions "_"%char d1 = false -> mentions "_"%char d2 = false ->
  (b1 +:+ "_" +:+ d1 = b2 +:+ "_" +:+ d2)%string -> b1 = b2 /\ d1 = d2.
Proof.
  intros b2 d1 d2 H1 H2. rewrite !append_underscore. revert b2.
  induction b1 as [|a b1 IH]; intros [|a2 b2] Heq;
    rewrite ?append_nil, ?append_cons in Heq.
  - injection Heq as ->. split; reflexivity.
  - injection Heq as <- ->. exfalso.
    rewrite mentions_app in H1. simpl in H1.
    rewrite orb_true_r in H1. discriminate.
  - injection Heq as -> <-. exfalso.
    rewrite mentions_app in H2. simpl in H2.
    rewrite orb_true_r in H2. discriminate.
  - injection Heq as -> Heq.
    destruct (IH b2 Heq) as [-> ->]. split; reflexivity.
Qed.

Lemma numbered_name_inj b1 b2 (c1 c2 : nat) :
  (b1 +:+ "_" +:+ pretty c1 = b2 +:+ "_" +:+ pretty c2)%string ->
  b1 = b2 /\ c1 = c2.
Proof.
  intros Heq.
  destruct (name_inj b1 b2 _ _ (pretty_nat_no_underscore c1)
              (pretty_nat_no_underscore c2) Heq) as [-> Hc].
  split; [reflexivity |]. apply (inj pretty). exact Hc.
Qed.

Lemma factory_names_from nm n : forall c,
  factory_names (mkFactory nm c) n
  = (fun k => (nm +:+ "_" +:+ pretty k)%string) <$> seq (S c) n.
Proof.
  induction n as [|n IH]; intros c; simpl; [reflexivity |].
  rewrite IH. reflexivity.
Qed.

(** X16: a palette entry numbers its elements from 1 on: the [k]-th click
    names the element [name_k], and no two elements of one entry, nor of
    two entries with different names, get the same name. *)
Theorem factory_names_are_fresh nm n :
  (forall k, (k < n)%nat ->
     factory_names (element_factory nm) n !! k
     = Some (nm +:+ "_" +:+ pretty (S k))%string) /\
  NoDup (factory_names (element_factory nm) n) /\
  (forall nm' n' s,
     s ∈ factory_names (element_factory nm) n ->
     s ∈ factory_names (element_factory nm') n' -> nm = nm').
Proof.
  unfold element_factory. rewrite factory_names_from.
  split; [| split].
  - intros k Hk. rewrite list_lookup_fmap, lookup_seq_lt by exact Hk.
    reflexivity.
  - apply NoDup_fmap_2_strong; [| apply NoDup_seq].
    intros k1 k2 _ _ Heq. apply numbered_name_inj in Heq as [_ Heq].
    exact Heq.
  - intros nm' n' s Hs Hs'. rewrite factory_names_from in Hs'.
    apply list_elem_of_fmap in Hs as (k & -> & _).
    apply list_elem_of_fmap in Hs' as (k' & Heq & _).
    apply numbered_name_inj in Heq as [Heq _]. exact Heq.
Qed.

Lemma custom_names_numbered bases : forall counters nm,
  nm ∈ custom_names bases counters ->
  exists b c,
    nm = (b +:+ "_" +:+ pretty c)%string /\
    (default 0%nat (counters !! b) < c)%nat.
Proof.
  induction bases as [|b0 rest IH]; intros counters nm Hin; simpl in Hin.
  - apply elem_of_nil in Hin. contradiction.
  - apply elem_of_cons in Hin as [-> | Hin].
    + exists b0, (S (default 0%nat (counters !! b0))). split; [reflexivity | lia].
    + destruct (IH _ _ Hin) as (b & c & -> & Hc).
      exists b, c. split; [reflexivity |].
      destruct (decide (b = b0)) as [-> | Hne].
      * rewrite lookup_insert_eq in Hc. simpl in Hc. lia.
      * rewrite lookup_insert_ne in Hc by congruence. exact Hc.
Qed.

(** X17: custom elements never share a name: whatever the diagrams clicked
    in the diagram list and whatever the counters so far, the names given
    out are pairwise different, and each is a base name followed by a
    number above that base's counter. *)
Theorem custom_names_are_fresh bases counters :
  NoDup (custom_names bases counters) /\
  (forall nm, nm ∈ custom_names bases counters ->
     exists b c,
       nm = (b +:+ "_" +:+ pretty c)%string /\
       (default 0%nat (counters !! b) < c)%nat).
Proof.
  split; [| apply custom_names_numbered].
  revert counters. induction bases as [|b0 rest IH]; intros counters; simpl.
  - constructor.
  - constructor; [| apply IH].
    intros Hin. apply custom_names_numbered in Hin as (b & c & Heq & Hc).
    apply numbered_name_inj in Heq as [<- <-].
    rewrite lookup_insert_eq in Hc. simpl in Hc. lia.
Qed.

(** The palette and the diagram list count apart: the first NOT gate and
    the first element of a diagram called "not" are both "not_1". *)
Example palette_and_diagram_list_collide :
  snd (wrapper (element_factory "not")) = "not_1"%string /\
  snd (add_custom_element "not" ∅) = "not_1"%string.
Proof. split; reflexivity. Qed.
